(** * ripple-rest: the transaction pipeline ([api/transact.js]) and its
      test harness

    A shallow embedding of [src/api/transact.js] and of the helpers of the
    test harness ([LEDGER_OFFSET], [closeLedgers], [loadArguments],
    [withDeterministicPRNG]), together with the properties of the
    transaction lifecycle that are stated about them.

    JavaScript values are an inductive type, plain objects are finite maps
    from property names to values, exceptions are the left summand of a sum,
    and the mutable world (the entropy source [ripple.sjcl.random], the
    pending registry, the log of calls to collaborators) is threaded
    explicitly. *)

From Stdlib Require Import ZArith Floats.SpecFloat.
From stdpp Require Import gmap strings list fin_maps.

Set Warnings "-register-all".
Local Open Scope Z_scope.

(** ** JavaScript values *)

Module JS.

(** The values that reach the pipeline: what [JSON.parse] produces, and
    [undefined]. Numbers are IEEE doubles, kept by class and digits. *)
Inductive value : Type :=
  | JUndefined
  | JNull
  | JBool (b : bool)
  | JNum (x : spec_float)
  | JStr (s : string)
  | JArr (l : list value)
  | JObj (o : gmap string value).

(** Errors that can be thrown or handed to a callback. [TypeError] is the
    engine's (property access on [undefined] or [null]), [AssertionError]
    is [assert]'s, the others are the kinds the gateway distinguishes. *)
Inductive error : Type :=
  | TypeError
  | AssertionError (message : string)
  | InvalidAddress
  | InvalidSecret
  | AddressSecretMismatch
  | UnrecognizedOption (names : list string)
  | UnsupportedTransactionType
  | NetworkUnavailable
  | SubmissionRejected
  | Expired.

(** ToBoolean: [undefined], [null], [false], [+0], [-0], [NaN] and the
    empty string are falsy, everything else is truthy. *)
Definition truthy (v : value) : bool :=
  match v with
  | JUndefined | JNull => false
  | JBool b => b
  | JNum (S754_zero _) | JNum S754_nan => false
  | JNum _ => true
  | JStr s => negb (String.eqb s "")
  | JArr _ | JObj _ => true
  end.

(** [v === false] *)
Definition strict_eq_false (v : value) : bool :=
  match v with
  | JBool false => true
  | _ => false
  end.

(** [v.k] for a name [k] that no prototype defines: a [TypeError] on
    [undefined] and [null], the own property of an object ([undefined]
    when it has none), [undefined] on the other values. *)
Definition get_prop (v : value) (k : string) : error + value :=
  match v with
  | JUndefined | JNull => inl TypeError
  | JObj o => inr (default JUndefined (o !! k))
  | _ => inr JUndefined
  end.

(** [_.keys(o)]: the own property names. The enumeration order of the
    engine is not tracked; the order is the map's. *)
Definition keys (o : gmap string value) : list string :=
  (map_to_list o).*1.

(** [_.difference(xs, ys)] *)
Definition difference (xs ys : list string) : list string :=
  list_difference xs ys.

(** [_.assign(target, s1, ..., sn)]: the sources are copied onto the
    target from left to right, a later source overwriting an earlier one. *)
Definition assign (target : gmap string value)
    (sources : list (gmap string value)) : gmap string value :=
  foldl (fun acc src => src ∪ acc) target sources.

(** The names that [Object.prototype] defines: reading one of them on a
    plain object that has no such property of its own gives the inherited
    value, which is not [undefined]. *)
Definition Object_prototype_members : list string :=
  ["constructor"; "toString"; "toLocaleString"; "valueOf"; "hasOwnProperty";
   "isPrototypeOf"; "propertyIsEnumerable"; "__proto__";
   "__defineGetter__"; "__defineSetter__";
   "__lookupGetter__"; "__lookupSetter__"].

(** [_.defaults(o, d)] (lodash 3): for every property [k] of [d], if
    [o[k]] is [undefined] then [o[k] = d[k]]. The read [o[k]] goes through
    the prototype: it is [undefined] when [o] has [k] with the value
    [undefined], or has no [k] and [k] is not a name of [Object.prototype];
    a default named like a member of [Object.prototype] is filled in only
    over a property of [o] itself. *)
Definition defaults (o d : gmap string value) : gmap string value :=
  merge (fun ov dv =>
           match ov, dv with
           | Some JUndefined, Some x => Some x
           | Some v, _ => Some v
           | None, _ => dv
           end) o
        (filter (fun kv => kv.1 ∉ Object_prototype_members ∨ is_Some (o !! kv.1))
                d).

(** [Array.prototype.toString] on an array of strings, as used by
    [string + array]. *)
Definition array_to_string (xs : list string) : string :=
  String.concat "," xs.

End JS.
Export JS.

(** ** The ledger window of the test harness *)

(** [var LEDGER_OFFSET = 3;] *)
Definition LEDGER_OFFSET : Z := 3.

(** Modelled from the spec: [fixtures.ledgerClose(n)] is not part of the
    sources; it is the ledger-close notification [{ledgerIndex}] that the
    mock server sends for ledger [n]. *)
Inductive message : Type :=
  | ledgerClose (ledger_index : Z).

(** [closeLedgers(conn)]:
    [for (var i = 0; i < LEDGER_OFFSET + 2; i++) conn.send(fixtures.ledgerClose(i + 1));]
    The connection is the list of messages sent on it so far. *)
Definition closeLedgers (conn : list message) : list message :=
  foldl (fun c i => c ++ [ledgerClose (i + 1)]) conn (seqZ 0 (LEDGER_OFFSET + 2)).

(** ** The pending tracker *)

Module PendingTracker.

(** Modelled from the spec: the status of a PendingEntry,
    [pending -> succeeded] or [pending -> expired], both terminal. *)
Inductive status : Type := pending | succeeded | expired.

#[export] Instance status_eq_dec : EqDecision status.
Proof. solve_decision. Defined.

(** Modelled from the spec: the submitter and its pending registry are not
    part of the sources. A PendingEntry is
    [{account, sequence, LastLedgerSequence, submittedAtLedger, status}],
    keyed by [(account, sequence)]. *)
Record PendingEntry : Type := mkEntry {
  account : string;
  sequence : Z;
  LastLedgerSequence : Z;
  submittedAtLedger : Z;
  entry_status : status
}.

Definition with_status (s : status) (e : PendingEntry) : PendingEntry :=
  mkEntry (account e) (sequence e) (LastLedgerSequence e)
          (submittedAtLedger e) s.

(** Modelled from the spec: the tracker owns the keyed map of entries and
    its notion of the current ledger. The active set is the set of entries
    whose status is [pending]; an entry that reached a terminal status has
    left the active set and is retained with that status. Late
    confirmations of expired entries are logged in [anomalies]. *)
Record t : Type := mkTracker {
  currentLedger : Z;
  entries : gmap (string * Z) PendingEntry;
  anomalies : list (string * Z)
}.

Definition empty (ledger : Z) : t := mkTracker ledger ∅ [].

(** The active set: the entries that are still pending. *)
Definition active (tr : t) : gmap (string * Z) PendingEntry :=
  filter (fun kv => entry_status kv.2 = pending) (entries tr).

(** Modelled from the spec: the TxBuilder's validity window,
    [LastLedgerSequence = currentLedgerIndex + OFFSET], with the offset of
    the reference window. *)
Definition OFFSET : Z := LEDGER_OFFSET.

Definition build_LastLedgerSequence (currentLedgerIndex : Z) : Z :=
  currentLedgerIndex + OFFSET.

(** Modelled from the spec: what the tracker reacts to, a submission, a
    confirmation notification for [(account, sequence)], a
    LedgerCloseEvent [{ledgerIndex}], an explicit cancellation. *)
Inductive event : Type :=
  | Submit (a : string) (s : Z)
  | Confirm (a : string) (s : Z)
  | LedgerClose (ledgerIndex : Z)
  | Cancel (a : string) (s : Z).

(** Modelled from the spec: on a ledger close every pending entry with
    [LastLedgerSequence < ledgerIndex] becomes expired. *)
Definition expire_after (ledgerIndex : Z) (e : PendingEntry) : PendingEntry :=
  match entry_status e with
  | pending =>
      if LastLedgerSequence e <? ledgerIndex then with_status expired e else e
  | _ => e
  end.

(** Modelled from the spec: the transitions of section 4.4.
    - submission creates a pending entry with
      [submittedAtLedger = currentLedger] (keys are unique: a key that is
      already registered is left as it is);
    - a confirmation takes a pending entry to [succeeded]; on an expired
      entry it is logged as an anomaly and changes nothing else;
    - a ledger close advances the current ledger and expires the pending
      entries whose window it exceeds;
    - cancellation walks the pending entries: it removes a pending entry
      without any status transition, and has nothing to remove for a key
      whose entry has already left the active set. *)
Definition step (tr : t) (ev : event) : t :=
  match ev with
  | Submit a s =>
      match entries tr !! (a, s) with
      | Some _ => tr
      | None =>
          let e := mkEntry a s (build_LastLedgerSequence (currentLedger tr))
                           (currentLedger tr) pending in
          mkTracker (currentLedger tr) (<[(a, s) := e]> (entries tr))
                    (anomalies tr)
      end
  | Confirm a s =>
      match entries tr !! (a, s) with
      | Some e =>
          match entry_status e with
          | pending =>
              mkTracker (currentLedger tr)
                        (<[(a, s) := with_status succeeded e]> (entries tr))
                        (anomalies tr)
          | expired =>
              mkTracker (currentLedger tr) (entries tr)
                        ((a, s) :: anomalies tr)
          | succeeded => tr
          end
      | None => tr
      end
  | LedgerClose i =>
      mkTracker i (expire_after i <$> entries tr) (anomalies tr)
  | Cancel a s =>
      match entries tr !! (a, s) with
      | Some e =>
          match entry_status e with
          | pending =>
              mkTracker (currentLedger tr) (delete (a, s) (entries tr))
                        (anomalies tr)
          | _ => tr
          end
      | None => tr
      end
  end.

Definition run (tr : t) (evs : list event) : t := foldl step tr evs.

(** Modelled from the spec: a ledger close is the finalization of the
    next ledger, so its index is beyond the current one. The other events
    are always deliverable. *)
Definition deliverable (tr : t) (ev : event) : Prop :=
  match ev with
  | LedgerClose i => currentLedger tr < i
  | _ => True
  end.

Inductive reachable : t -> Prop :=
  | reachable_empty ledger : reachable (empty ledger)
  | reachable_step tr ev :
      reachable tr -> deliverable tr ev -> reachable (step tr ev).

Definition status_of (tr : t) (a : string) (s : Z) : option status :=
  entry_status <$> entries tr !! (a, s).

(** Modelled from the spec: what the waiter of a submission is told,
    nothing while the entry is pending (or unknown), success, or the
    expiry failure. *)
Definition pipeline_result (tr : t) (a : string) (s : Z)
    : option (error + unit) :=
  match status_of tr a s with
  | Some succeeded => Some (inr tt)
  | Some expired => Some (inl Expired)
  | Some pending | None => None
  end.

(** The notification that a message of the mock server amounts to. *)
Definition deliver (m : message) : event :=
  match m with ledgerClose i => LedgerClose i end.

(** The closes of ledgers [L+1 .. L+n]. *)
Definition closes_from (L : Z) (n : Z) : list event :=
  (fun i => LedgerClose (L + (i + 1))) <$> seqZ 0 n.

(** What holds of each entry in a reachable state: it was submitted no
    later than the current ledger, a pending one is within its window and
    an expired one is beyond it. *)
Definition entry_ok (ledger : Z) (e : PendingEntry) : Prop :=
  submittedAtLedger e <= ledger ∧
  (entry_status e = pending -> ledger <= LastLedgerSequence e) ∧
  (entry_status e = expired -> LastLedgerSequence e < ledger).

End PendingTracker.

(** ** The world the pipeline runs in *)

(** A call that leaves the process for a collaborator. *)
Inductive call : Type :=
  | CallCreateTxJSON
  | CallSign
  | CallSubmit.

(** The mutable state shared with the collaborators: the entropy source
    [ripple.sjcl.random] and the pending registry of the submitter. *)
Record Net (PRNG : Type) : Type := mkNet {
  sjcl_random : PRNG;
  registry : PendingTracker.t
}.
Arguments mkNet {PRNG} _ _.
Arguments sjcl_random {PRNG} _.
Arguments registry {PRNG} _.

Definition set_sjcl_random {PRNG} (p : PRNG) (n : Net PRNG) : Net PRNG :=
  mkNet p (registry n).

(** The state of a run: the shared state, and the calls made so far (most
    recent first). *)
Record World (PRNG : Type) : Type := mkWorld {
  net : Net PRNG;
  calls : list call
}.
Arguments mkWorld {PRNG} _ _.
Arguments net {PRNG} _.
Arguments calls {PRNG} _.

(** Synchronous code that may throw: the left summand is the exception. *)
Definition M (S A : Type) : Type := S -> (error + A) * S.

Definition ret {S A} (a : A) : M S A := fun s => (inr a, s).

Definition throw {S A} (e : error) : M S A := fun s => (inl e, s).

Definition bind {S A B} (m : M S A) (k : A -> M S B) : M S B :=
  fun s =>
    match m s with
    | (inl e, s') => (inl e, s')
    | (inr a, s') => k a s'
    end.

#[export] Instance M_ret {S} : MRet (M S) := fun A a => ret a.
#[export] Instance M_bind {S} : MBind (M S) := fun A B k m => bind m k.

(** A pure computation that may throw, run in the monad. *)
Definition lift {S A} (r : error + A) : M S A := fun s => (r, s).

(** A validator returns normally ([None]) or throws ([Some e]). *)
Definition check {S} (r : option error) : M S unit :=
  match r with
  | Some e => throw e
  | None => ret tt
  end.

(** The modules [transact.js] requires and that are not part of the
    sources: [./lib/validate], [./transaction/utils], [./transaction/sign]
    and [./transactions]. The asynchronous ones hand an error or a result to
    their callback. *)
Class Collaborators : Type := {
  PRNG : Type;
  (** [validate.addressAndMaybeSecret({address, secret})] *)
  validate_addressAndMaybeSecret : value -> value -> option error;
  (** [validate.addressAndSecret({address, secret})] *)
  validate_addressAndSecret : value -> value -> option error;
  (** [validate.options(options)] *)
  validate_options : value -> option error;
  (** [createTxJSON(transaction, remote, options, callback)] *)
  createTxJSON :
    value -> value -> value -> Net PRNG -> (error + gmap string value) * Net PRNG;
  (** [sign(tx_json, secret)], which draws from the entropy source *)
  sign : value -> value -> PRNG -> (error + gmap string value) * PRNG;
  (** [transactions.submit(api, transaction, secret, options, callback)] *)
  transactions_submit :
    value -> value -> value -> value -> Net PRNG -> (error + value) * Net PRNG
}.

(** The caller's converter: a function of its argument list that returns an
    object or throws, and leaves its arguments as they are. *)
Definition converter_fn : Type := list value -> error + gmap string value.

Section Transact.
Context `{C : Collaborators}.

Definition logged (c : call) : M (World PRNG) unit :=
  fun w => (inr tt, mkWorld (net w) (c :: calls w)).

Definition on_net {A} (f : Net PRNG -> (error + A) * Net PRNG)
    : M (World PRNG) A :=
  fun w => let '(r, n) := f (net w) in (r, mkWorld n (calls w)).

Definition call_createTxJSON (transaction remote options : value)
    : M (World PRNG) (gmap string value) :=
  logged CallCreateTxJSON ;; on_net (createTxJSON transaction remote options).

Definition call_sign (tx_json secret : value)
    : M (World PRNG) (gmap string value) :=
  logged CallSign ;;
  on_net (fun n =>
            let '(r, p) := sign tx_json secret (sjcl_random n) in
            (r, set_sjcl_random p n)).

Definition call_submit (api transaction secret options : value)
    : M (World PRNG) value :=
  logged CallSubmit ;;
  on_net (transactions_submit api transaction secret options).

(** [function signIfSecretExists(secret, prepared)]:
    [var signResponse = secret ? sign(prepared.tx_json, secret) : {};]
    [return _.assign({}, prepared, signResponse);] *)
Definition signIfSecretExists (secret : value) (prepared : gmap string value)
    : M (World PRNG) (gmap string value) :=
  signResponse ←
    (if truthy secret
     then call_sign (default JUndefined (prepared !! "tx_json")) secret
     else ret ∅);
  ret (assign ∅ [prepared; signResponse]).

(** [function formatResponse(converter, prepared)]:
    [return _.assign({}, prepared, converter(prepared, {}));] *)
Definition formatResponse (converter : converter_fn)
    (prepared : gmap string value) : M (World PRNG) (gmap string value) :=
  converted ← lift (converter [JObj prepared; JObj ∅]);
  ret (assign ∅ [prepared; converted]).

(** How a call of [transact] ends: an exception thrown to the caller, or
    the callback invoked with an error or with a result. *)
Inductive outcome : Type :=
  | Thrown (e : error)
  | Callback (r : error + value).

(** The synchronous prologue [pre], then [async.waterfall(tasks, callback)]:
    an exception of the prologue is thrown to the caller; the tasks run in
    sequence and the first error, or the last result, goes to the
    callback. [asyncify(f)] turns an exception of [f] into the error of its
    callback, so a task is a computation of [M] either way. *)
Definition then_waterfall {A} (pre : M (World PRNG) A)
    (tasks : A -> M (World PRNG) value) : World PRNG -> outcome * World PRNG :=
  fun w =>
    match pre w with
    | (inl e, w') => (Thrown e, w')
    | (inr a, w') => let '(r, w'') := tasks a w' in (Callback r, w'')
    end.

(** [transaction.tx_json.Account] *)
Definition source_address (transaction : value) : error + value :=
  match get_prop transaction "tx_json" with
  | inl e => inl e
  | inr tx_json => get_prop tx_json "Account"
  end.

(** [function prepareAndOptionallySign(transaction, api, secret, options,
    converter, callback)] *)
Definition prepareAndOptionallySign (transaction api secret options : value)
    (converter : converter_fn) : World PRNG -> outcome * World PRNG :=
  then_waterfall
    (address ← lift (source_address transaction);
     check (validate_addressAndMaybeSecret address secret) ;;
     check (validate_options options) ;;
     lift (get_prop api "remote"))
    (fun remote =>
       prepared ← call_createTxJSON transaction remote options;
       signed ← signIfSecretExists secret prepared;
       formatted ← formatResponse converter signed;
       ret (JObj formatted)).

(** [function prepareAndSignAndSubmit(transaction, api, secret, options,
    converter, callback)] *)
Definition prepareAndSignAndSubmit (transaction api secret options : value)
    (converter : converter_fn) : World PRNG -> outcome * World PRNG :=
  then_waterfall
    (address ← lift (source_address transaction);
     check (validate_addressAndSecret address secret) ;;
     check (validate_options options))
    (fun _ =>
       submitted ← call_submit api transaction secret options;
       converted ← lift (converter [submitted]);
       ret (JObj converted)).

(** [function transact(transaction, api, secret, options, converter,
    callback)]: [if (options.submit === false) ... else ...] *)
Definition transact (transaction api secret options : value)
    (converter : converter_fn) : World PRNG -> outcome * World PRNG :=
  fun w =>
    match get_prop options "submit" with
    | inl e => (Thrown e, w)
    | inr submit =>
        if strict_eq_false submit
        then prepareAndOptionallySign transaction api secret options converter w
        else prepareAndSignAndSubmit transaction api secret options converter w
    end.

End Transact.

(** ** Helpers of the test harness *)

(** [function loadArguments(args, defaults)]: the names of [args] that
    [defaults] does not have are collected; the assertion throws when there
    is one, and otherwise [_.defaults(args, defaults)] fills [args] in. The
    result is the object [args] after the call. *)
Definition loadArguments (args defaults : gmap string value)
    : error + gmap string value :=
  let unrecognizedArgs := JS.difference (JS.keys args) (JS.keys defaults) in
  if (length unrecognizedArgs =? 0)%nat
  then inr (JS.defaults args defaults)
  else inl (AssertionError
              ("Error in test code: unrecognized keyword argument(s): "
               +:+ array_to_string unrecognizedArgs)).

Section Entropy.
Context {PRNG D R : Type}.

(** Modelled from the spec: [new PRNGMock()] is not part of the sources;
    it is the deterministic randomness source that the harness
    substitutes, and every new one starts in the same state. *)
Variable PRNGMock_new : PRNG.

(** [function withDeterministicPRNG(callback, done)], in
    continuation-passing style: the entropy source is saved and replaced
    by a new mock, [callback] runs and, when it calls back, the saved
    source is put back and [done] receives what [callback] produced. *)
Definition withDeterministicPRNG
    (callback : (error + D -> Net PRNG -> R) -> Net PRNG -> R)
    (done : error + D -> Net PRNG -> R) : Net PRNG -> R :=
  fun g =>
    let prng := sjcl_random g in
    callback (fun r g' => done r (set_sjcl_random prng g'))
             (set_sjcl_random PRNGMock_new g).

(** A request that signs [txJSON] with [secret] and calls back with the
    signed blob: the signer draws from the entropy source installed at
    that moment. *)
Definition sign_request
    (sign : value -> value -> PRNG -> (error + D) * PRNG)
    (txJSON secret : value)
    : (error + D -> Net PRNG -> R) -> Net PRNG -> R :=
  fun cb g =>
    let '(r, p) := sign txJSON secret (sjcl_random g) in
    cb r (set_sjcl_random p g).

End Entropy.

(** ** The validator, as specified *)

(** Modelled from the spec: what the validator needs from the ledger's
    address encoding, which [./lib/validate] takes from the ledger library:
    whether an address or a secret is well formed, and whether a secret
    derives an address. *)
Class AddressCodec : Type := {
  valid_address : string -> bool;
  valid_secret : string -> bool;
  derives : string -> string -> bool
}.

Section Validator.
Context `{Codec : AddressCodec}.

Definition validateAddress (address : value) : option error :=
  match address with
  | JStr a => if valid_address a then None else Some InvalidAddress
  | _ => Some InvalidAddress
  end.

Definition validateSecretFor (address secret : value) : option error :=
  match address, secret with
  | JStr a, JStr s =>
      if valid_secret s
      then if derives s a then None else Some AddressSecretMismatch
      else Some InvalidSecret
  | _, _ => Some InvalidSecret
  end.

(** Modelled from the spec: [./lib/validate] is not part of the sources.
    [validateAddressAndSecret(address, secret?)] requires the address to be
    well formed and, if the secret is present, that the secret derives the
    address; where the secret is mandatory its absence is itself an
    error. *)
Definition spec_addressAndSecret (address secret : value) : option error :=
  match validateAddress address with
  | Some e => Some e
  | None =>
      match secret with
      | JUndefined => Some InvalidSecret
      | _ => validateSecretFor address secret
      end
  end.

(** Modelled from the spec: the same validator in the mode in which the
    secret is optional, used when signing is deferred. *)
Definition spec_addressAndMaybeSecret (address secret : value)
    : option error :=
  match validateAddress address with
  | Some e => Some e
  | None =>
      match secret with
      | JUndefined => None
      | _ => validateSecretFor address secret
      end
  end.

(** The failures of the validator. *)
Definition is_validation_error (e : error) : bool :=
  match e with
  | InvalidAddress | InvalidSecret | AddressSecretMismatch
  | UnrecognizedOption _ => true
  | _ => false
  end.

End Validator.

(** ** Concrete collaborators, for running the pipeline on examples *)

Module Example.

(** Addresses start with [r], secrets with [s]; a secret derives the
    address that has the same tail. *)
Definition tail (s : string) : string :=
  match s with
  | EmptyString => EmptyString
  | String _ r => r
  end.

#[export] Instance codec : AddressCodec := {|
  valid_address := String.prefix "r";
  valid_secret := String.prefix "s";
  derives s a := String.eqb (tail s) (tail a)
|}.

Definition recognized : list string := ["submit"; "validated"].

Definition options_ok (options : value) : option error :=
  match options with
  | JObj o =>
      match JS.difference (JS.keys o) recognized with
      | [] => None
      | bad => Some (UnrecognizedOption bad)
      end
  | _ => None
  end.

(** The builder copies the request's [tx_json]. *)
Definition build (transaction remote options : value) (n : Net Z)
    : (error + gmap string value) * Net Z :=
  match get_prop transaction "tx_json" with
  | inr tx_json => (inr {[ "tx_json" := tx_json ]}, n)
  | inl e => (inl e, n)
  end.

(** The signer draws one word and puts it in the blob. *)
Definition signer (tx_json secret : value) (p : Z)
    : (error + gmap string value) * Z :=
  (inr (<["tx_blob" := JNum (S754_finite false (Z.to_pos (p + 1)) 0)]>
          {[ "hash" := JStr "H" ]}), p + 1).

(** Submission registers sequence 1 of the account [rA]. *)
Definition submitter (api transaction secret options : value) (n : Net Z)
    : (error + value) * Net Z :=
  (inr (JObj {[ "success" := JBool true ]}),
   mkNet (sjcl_random n)
         (PendingTracker.step (registry n) (PendingTracker.Submit "rA" 1))).

#[export] Instance collaborators : Collaborators := {|
  PRNG := Z;
  validate_addressAndMaybeSecret := spec_addressAndMaybeSecret;
  validate_addressAndSecret := spec_addressAndSecret;
  validate_options := options_ok;
  createTxJSON := build;
  sign := signer;
  transactions_submit := submitter
|}.

Definition payment : value :=
  JObj {[ "tx_json" := JObj (<["Account" := JStr "rA"]>
                               {[ "Destination" := JStr "rB" ]}) ]}.

Definition api : value := JObj {[ "remote" := JStr "remote" ]}.

Definition world0 : World Z :=
  mkWorld (mkNet 0 (PendingTracker.empty 0)) [].

(** A converter that derives one field. *)
Definition converter : converter_fn :=
  fun _ => inr {[ "status" := JStr "ok" ]}.

End Example.

(** ** The rest of the test harness *)

(** [getURLBase()], [getSignURL()], [getSubmitURL()] and
    [getPrepareURL(type)]. [./version] is not part of the sources:
    [apiVersion] is the string that ['/v' + version.getApiVersion()]
    appends. *)
Definition getURLBase (apiVersion : string) : string :=
  "/v" +:+ apiVersion.

Definition getSignURL (apiVersion : string) : string :=
  getURLBase apiVersion +:+ "/transaction/sign".

Definition getSubmitURL (apiVersion : string) : string :=
  getURLBase apiVersion +:+ "/transaction/submit".

Definition getPrepareURL (apiVersion : string) (type : string) : string :=
  (getURLBase apiVersion +:+ "/transaction/prepare/") +:+ type.

(** What [withoutSigning] takes from the engine and from lodash: the JSON
    codec, and what [_.omit] makes of a value that is neither an object nor
    [undefined] or [null] (a primitive or an array). Objects are maps from
    names to values: the order in which [JSON.stringify] prints the fields,
    which is the order in which they were created, is not tracked. *)
Class Engine : Type := {
  JSON_parse : string -> error + value;
  JSON_stringify : value -> string;
  omit_other : value -> list string -> gmap string value
}.

Section WithoutSigning.
Context `{E : Engine}.

(** [_.omit(object, props)] (lodash 3) is the empty object for [undefined]
    and [null]; for an object it copies the properties whose names are not
    in [props] onto a new object by [result[key] = object[key]]. For a
    property named [__proto__] (which [JSON.parse] creates as an ordinary
    property) that assignment creates no property: it sets the prototype of
    the result when the value is an object, an array or [null], and does
    nothing otherwise. [omit] is the properties of the result,
    [omit_prototype] the prototype it was given, if any. *)
Definition omit (object : value) (props : list string) : gmap string value :=
  match object with
  | JObj o => filter (fun kv => (kv.1 ∉ props) ∧ (kv.1 ≠ "__proto__")) o
  | JUndefined | JNull => ∅
  | _ => omit_other object props
  end.

Definition omit_prototype (object : value) (props : list string)
    : option value :=
  match object with
  | JObj o =>
      if decide ("__proto__" ∈ props) then None
      else match o !! "__proto__" with
           | Some (JObj p) => Some (JObj p)
           | Some (JArr l) => Some (JArr l)
           | Some JNull => Some JNull
           | _ => None
           end
  | _ => None
  end.

(** [result.k] on a result of [_.omit] whose properties are [own] and whose
    prototype was set to [prototype], for a name [k] that the built-in
    prototypes do not define: the property of the result, else the property
    of the object it has for prototype, else [undefined]. *)
Definition get_through (own : gmap string value) (prototype : option value)
    (k : string) : value :=
  match own !! k with
  | Some v => v
  | None =>
      match prototype with
      | Some (JObj p) => default JUndefined (p !! k)
      | _ => JUndefined
      end
  end.

(** The object that [withoutSigning] builds from the parsed response and
    prints:
    [var result = _.omit(parsed, ['tx_blob', 'hash']);]
    [result.tx_json = _.omit(result.tx_json, ['SigningPubKey', 'TxnSignature']);] *)
Definition withoutSigning_result (parsed : value) : gmap string value :=
  let result := omit parsed ["tx_blob"; "hash"] in
  let tx_json :=
    get_through result (omit_prototype parsed ["tx_blob"; "hash"]) "tx_json" in
  <["tx_json" := JObj (omit tx_json ["SigningPubKey"; "TxnSignature"])]> result.

(** [function withoutSigning(response)]: parse, strip, print. An exception
    of [JSON.parse] is the function's. *)
Definition withoutSigning (response : string) : error + string :=
  match JSON_parse response with
  | inl e => inl e
  | inr parsed => inr (JSON_stringify (JObj (withoutSigning_result parsed)))
  end.

End WithoutSigning.

(** A request under [withDeterministicPRNG] that does [body] on the shared
    state and then calls back with what [body] produced. *)
Definition request_of {PRNG D R : Type}
    (body : Net PRNG -> (error + D) * Net PRNG)
    : (error + D -> Net PRNG -> R) -> Net PRNG -> R :=
  fun cb g => let '(r, g') := body g in cb r g'.

(** Collaborators that fail, for running the error paths: the builder
    reports [NetworkUnavailable] when [build_fails] (and is the example's
    otherwise), the signer and the submitter always fail. *)
Module Faulty.

Definition collaborators (build_fails : bool) : Collaborators := {|
  PRNG := Z;
  validate_addressAndMaybeSecret := spec_addressAndMaybeSecret (Codec := Example.codec);
  validate_addressAndSecret := spec_addressAndSecret (Codec := Example.codec);
  validate_options := Example.options_ok;
  createTxJSON transaction remote options n :=
    if build_fails then (inl NetworkUnavailable, n)
    else Example.build transaction remote options n;
  sign tx_json secret p := (inl InvalidSecret, p + 1);
  transactions_submit api transaction secret options n :=
    (inl SubmissionRejected, n)
|}.

End Faulty.

(** An engine with a canned codec, for running [withoutSigning]: three
    responses are known to the parser, and the printer prints the stripped
    one. *)
Module Canned.

Definition unsigned : gmap string value :=
  {[ "tx_json" := JObj {[ "Account" := JStr "rA" ]} ]}.

Definition signed : gmap string value :=
  <["tx_blob" := JStr "1200"]>
    (<["hash" := JStr "H"]>
       {[ "tx_json" := JObj (<["SigningPubKey" := JStr "02"]>
                               (<["TxnSignature" := JStr "30"]>
                                  {[ "Account" := JStr "rA" ]})) ]}).

#[export] Instance engine : Engine := {|
  JSON_parse s :=
    if String.eqb s "signed" then inr (JObj signed)
    else if String.eqb s "unsigned" then inr (JObj unsigned)
    else if String.eqb s "stripped" then inr (JObj unsigned)
    else if String.eqb s "bare" then inr (JObj {[ "hash" := JStr "H" ]})
    else inl (AssertionError "Unexpected token");
  JSON_stringify v := "stripped";
  omit_other v props := ∅
|}.

End Canned.

(** * Properties *)

(** ** Objects *)

Lemma assign_two_lookup (a b : gmap string value) (k : string) :
  assign ∅ [a; b] !! k =
    match b !! k with
    | Some v => Some v
    | None => a !! k
    end.
Proof.
  unfold assign; simpl.
  rewrite (right_id_L ∅ (∪) a), lookup_union.
  destruct (b !! k), (a !! k); reflexivity.
Qed.

Lemma assign_nothing (a : gmap string value) : assign ∅ [a; ∅] = a.
Proof.
  unfold assign; simpl.
  by rewrite (right_id_L ∅ (∪) a), (left_id_L ∅ (∪) a).
Qed.

Lemma elem_of_keys (o : gmap string value) (k : string) :
  k ∈ JS.keys o ↔ k ∈ dom o.
Proof.
  unfold JS.keys. rewrite elem_of_dom, list_elem_of_fmap. split.
  - intros [[k' v] [-> Hin]]. apply elem_of_map_to_list in Hin. by exists v.
  - intros [v Hv]. exists (k, v). split; [done|]. by apply elem_of_map_to_list.
Qed.

Lemma elem_of_difference_keys (a d : gmap string value) (k : string) :
  k ∈ JS.difference (JS.keys a) (JS.keys d) ↔ k ∈ dom a ∧ k ∉ dom d.
Proof.
  unfold JS.difference.
  by rewrite list_elem_of_difference, !elem_of_keys.
Qed.

Lemma falsy_cases (v : value) :
  truthy v = false ↔
    v = JUndefined ∨ v = JNull ∨ v = JBool false ∨
    (∃ s, v = JNum (S754_zero s)) ∨ v = JNum S754_nan ∨ v = JStr "".
Proof.
  split.
  - destruct v as [| |[]|[]| s | |]; simpl; try discriminate; eauto 10.
    destruct s; simpl; [eauto 10 | discriminate].
  - intros [->|[->|[->|[[s ->]|[->| ->]]]]]; reflexivity.
Qed.

(** ** The pipeline *)

Section TransactFacts.
Context `{C : Collaborators}.

Lemma signIfSecretExists_falsy secret prepared (w : World PRNG) :
  truthy secret = false ->
  signIfSecretExists secret prepared w = (inr prepared, w).
Proof.
  intros Hf. unfold signIfSecretExists. rewrite Hf.
  cbv [mbind M_bind bind ret]. by rewrite assign_nothing.
Qed.

Lemma transact_on_false transaction api secret (o : gmap string value)
    converter (w : World PRNG) :
  o !! "submit" = Some (JBool false) ->
  transact transaction api secret (JObj o) converter w =
    prepareAndOptionallySign transaction api secret (JObj o) converter w.
Proof. intros Ho. unfold transact; simpl. by rewrite Ho. Qed.

Lemma transact_on_other transaction api secret (o : gmap string value)
    converter (w : World PRNG) :
  o !! "submit" ≠ Some (JBool false) ->
  transact transaction api secret (JObj o) converter w =
    prepareAndSignAndSubmit transaction api secret (JObj o) converter w.
Proof.
  intros Ho. unfold transact; simpl.
  destruct (o !! "submit") as [[| |[]| | | |]|]; simpl; congruence.
Qed.

Lemma prepare_throws transaction api secret options converter
    (w : World PRNG) address e :
  source_address transaction = inr address ->
  validate_addressAndMaybeSecret address secret = Some e ∨
  (validate_addressAndMaybeSecret address secret = None ∧
   validate_options options = Some e) ->
  prepareAndOptionallySign transaction api secret options converter w =
    (Thrown e, w).
Proof.
  intros Ha Hv. unfold prepareAndOptionallySign, then_waterfall.
  cbv [mbind M_bind bind lift]. rewrite Ha.
  destruct Hv as [-> | [-> ->]]; reflexivity.
Qed.

Lemma submit_throws transaction api secret options converter
    (w : World PRNG) address e :
  source_address transaction = inr address ->
  validate_addressAndSecret address secret = Some e ∨
  (validate_addressAndSecret address secret = None ∧
   validate_options options = Some e) ->
  prepareAndSignAndSubmit transaction api secret options converter w =
    (Thrown e, w).
Proof.
  intros Ha Hv. unfold prepareAndSignAndSubmit, then_waterfall.
  cbv [mbind M_bind bind lift]. rewrite Ha.
  destruct Hv as [-> | [-> ->]]; reflexivity.
Qed.

End TransactFacts.

(** C1. [transact] runs [prepareAndOptionallySign] when [options.submit] is
    the boolean [false], and [prepareAndSignAndSubmit] for every other
    value of [options.submit]: [true], [undefined], the other falsy values,
    and the property being absent. *)
Theorem transact_selects_by_strict_false `{C : Collaborators}
    (transaction api secret : value) (o : gmap string value)
    (converter : converter_fn) (w : World PRNG) :
  (o !! "submit" = Some (JBool false) ->
   transact transaction api secret (JObj o) converter w =
     prepareAndOptionallySign transaction api secret (JObj o) converter w) ∧
  (o !! "submit" ≠ Some (JBool false) ->
   transact transaction api secret (JObj o) converter w =
     prepareAndSignAndSubmit transaction api secret (JObj o) converter w).
Proof. split; [apply transact_on_false | apply transact_on_other]. Qed.

Lemma transact_selects_by_strict_false_witness :
  let run o :=
    transact (C := Example.collaborators) Example.payment Example.api
             (JStr "sA") (JObj o) Example.converter Example.world0 in
  (run {[ "submit" := JBool false ]}).1
    = Callback (inr (JObj (<["status" := JStr "ok"]>
         (<["tx_json" := default JUndefined
                           (match Example.payment with
                            | JObj p => p !! "tx_json" | _ => None end)]>
         (<["tx_blob" := JNum (S754_finite false 1 0)]>
            {[ "hash" := JStr "H" ]})))))
  ∧ calls (run {[ "submit" := JBool false ]}).2 = [CallSign; CallCreateTxJSON]
  ∧ calls (run {[ "submit" := JNull ]}).2 = [CallSubmit]
  ∧ calls (run {[ "submit" := JNum (S754_zero false) ]}).2 = [CallSubmit]
  ∧ calls (run {[ "submit" := JUndefined ]}).2 = [CallSubmit]
  ∧ calls (run {[ "submit" := JBool true ]}).2 = [CallSubmit]
  ∧ calls (run ∅).2 = [CallSubmit].
Proof.
  intros run. subst run. cbv beta.
  rewrite (proj1 (transact_selects_by_strict_false (C := Example.collaborators)
             Example.payment Example.api (JStr "sA")
             {[ "submit" := JBool false ]} Example.converter Example.world0));
    [|reflexivity].
  rewrite (proj2 (transact_selects_by_strict_false (C := Example.collaborators)
             Example.payment Example.api (JStr "sA")
             {[ "submit" := JNull ]} Example.converter Example.world0));
    [|vm_compute; discriminate].
  rewrite (proj2 (transact_selects_by_strict_false (C := Example.collaborators)
             Example.payment Example.api (JStr "sA")
             {[ "submit" := JNum (S754_zero false) ]} Example.converter
             Example.world0)); [|vm_compute; discriminate].
  rewrite (proj2 (transact_selects_by_strict_false (C := Example.collaborators)
             Example.payment Example.api (JStr "sA")
             {[ "submit" := JUndefined ]} Example.converter Example.world0));
    [|vm_compute; discriminate].
  rewrite (proj2 (transact_selects_by_strict_false (C := Example.collaborators)
             Example.payment Example.api (JStr "sA")
             {[ "submit" := JBool true ]} Example.converter Example.world0));
    [|vm_compute; discriminate].
  rewrite (proj2 (transact_selects_by_strict_false (C := Example.collaborators)
             Example.payment Example.api (JStr "sA")
             ∅ Example.converter Example.world0));
    [|vm_compute; discriminate].
  vm_compute. repeat split.
Defined.

(** C4. When the address/secret validation of the selected mode fails, or
    it passes and the option validation fails, [transact] throws that
    error to its caller and the world is as it was: no call to
    [createTxJSON], to [sign] or to [transactions.submit] has been made and
    the pending registry is unchanged. *)
Theorem validation_failure_aborts `{C : Collaborators}
    (transaction api secret : value) (o : gmap string value)
    (converter : converter_fn) (w : World PRNG) (address : value) (e : error) :
  source_address transaction = inr address ->
  (o !! "submit" = Some (JBool false) ∧
     (validate_addressAndMaybeSecret address secret = Some e ∨
      (validate_addressAndMaybeSecret address secret = None ∧
       validate_options (JObj o) = Some e))) ∨
  (o !! "submit" ≠ Some (JBool false) ∧
     (validate_addressAndSecret address secret = Some e ∨
      (validate_addressAndSecret address secret = None ∧
       validate_options (JObj o) = Some e))) ->
  let r := transact transaction api secret (JObj o) converter w in
  r = (Thrown e, w) ∧
  calls r.2 = calls w ∧
  registry (net r.2) = registry (net w).
Proof.
  intros Ha [[Ho Hv] | [Ho Hv]] r; subst r.
  - rewrite (transact_on_false _ _ _ _ _ _ Ho),
      (prepare_throws _ _ _ _ _ _ _ _ Ha Hv). done.
  - rewrite (transact_on_other _ _ _ _ _ _ Ho),
      (submit_throws _ _ _ _ _ _ _ _ Ha Hv). done.
Qed.

Lemma validation_failure_aborts_witness :
  transact (C := Example.collaborators) Example.payment Example.api
    (JStr "sA") (JObj {[ "submitt" := JBool false ]}) Example.converter
    Example.world0
  = (Thrown (UnrecognizedOption ["submitt"]), Example.world0)
  ∧
  transact (C := Example.collaborators) Example.payment Example.api
    (JStr "nonsense") (JObj {[ "submit" := JBool false ]}) Example.converter
    Example.world0
  = (Thrown InvalidSecret, Example.world0).
Proof.
  split.
  - refine (proj1 (validation_failure_aborts (C := Example.collaborators)
              Example.payment Example.api (JStr "sA")
              {[ "submitt" := JBool false ]} Example.converter Example.world0
              (JStr "rA") (UnrecognizedOption ["submitt"]) _ _)).
    + reflexivity.
    + right. split; [vm_compute; discriminate|]. right. split; reflexivity.
  - refine (proj1 (validation_failure_aborts (C := Example.collaborators)
              Example.payment Example.api (JStr "nonsense")
              {[ "submit" := JBool false ]} Example.converter Example.world0
              (JStr "rA") InvalidSecret _ _)).
    + reflexivity.
    + left. split; [reflexivity|]. left. reflexivity.
Defined.



(** The whole prepare-only pipeline on a payment from [rA] to [rB] with
    [{submit: false}] and no secret, with the example collaborators: the
    response carries the request's account and is not signed, and only
    [createTxJSON] was called. *)
Example prepare_only_end_to_end :
  ∃ response w',
    transact (C := Example.collaborators) Example.payment Example.api
      JUndefined (JObj {[ "submit" := JBool false ]}) Example.converter
      Example.world0
      = (Callback (inr (JObj response)), w') ∧
    get_prop (default JUndefined (response !! "tx_json")) "Account"
      = inr (JStr "rA") ∧
    response !! "tx_blob" = None ∧
    response !! "hash" = None ∧
    calls w' = [CallCreateTxJSON].
Proof.
  eexists _, _. split; [vm_compute; reflexivity|]. by vm_compute.
Qed.

(** C8. The formatted response is the pipeline result overlaid with the
    converter's fields: a key the converter supplies has the converter's
    value, and a key only the pipeline result has keeps its value. *)
Theorem formatResponse_converter_wins `{C : Collaborators}
    (converter : converter_fn) (prepared converted : gmap string value)
    (w : World PRNG) :
  converter [JObj prepared; JObj ∅] = inr converted ->
  ∃ response,
    formatResponse converter prepared w = (inr response, w) ∧
    (∀ k v, converted !! k = Some v -> response !! k = Some v) ∧
    (∀ k, converted !! k = None -> response !! k = prepared !! k).
Proof.
  intros Hc. exists (assign ∅ [prepared; converted]). split; [|split].
  - unfold formatResponse. cbv [mbind M_bind bind lift ret]. by rewrite Hc.
  - intros k v Hk. by rewrite assign_two_lookup, Hk.
  - intros k Hk. by rewrite assign_two_lookup, Hk.
Qed.

Lemma formatResponse_converter_wins_witness :
  ∃ response,
    formatResponse (C := Example.collaborators)
      (fun _ => inr (<["status" := JStr "ok"]> {[ "hash" := JStr "new" ]}))
      (<["hash" := JStr "old"]> {[ "tx_json" := JNull ]}) Example.world0
      = (inr response, Example.world0) ∧
    response !! "hash" = Some (JStr "new") ∧
    response !! "status" = Some (JStr "ok") ∧
    response !! "tx_json" = Some JNull.
Proof.
  destruct (formatResponse_converter_wins (C := Example.collaborators)
              (fun _ => inr (<["status" := JStr "ok"]> {[ "hash" := JStr "new" ]}))
              (<["hash" := JStr "old"]> {[ "tx_json" := JNull ]})
              (<["status" := JStr "ok"]> {[ "hash" := JStr "new" ]})
              Example.world0 eq_refl) as (response & Hrun & Hwin & Hkeep).
  exists response. split; [exact Hrun|]. split; [|split].
  - apply Hwin. reflexivity.
  - apply Hwin. reflexivity.
  - rewrite Hkeep; reflexivity.
Defined.

(** C10. Signing is skipped on every falsy secret ([undefined], [null],
    [false], a zero, [NaN], the empty string): [signIfSecretExists] then
    returns the prepared object as it is, without calling [sign] and without
    raising, exactly as when no secret is given. *)
Theorem falsy_secret_skips_signing `{C : Collaborators}
    (secret : value) (prepared : gmap string value) (w : World PRNG) :
  truthy secret = false ->
  signIfSecretExists secret prepared w = (inr prepared, w) ∧
  signIfSecretExists secret prepared w =
    signIfSecretExists JUndefined prepared w.
Proof.
  intros Hf. rewrite !signIfSecretExists_falsy by done. done.
Qed.

Lemma falsy_secret_skips_signing_witness :
  signIfSecretExists (C := Example.collaborators) (JStr "")
    {[ "tx_json" := JNull ]} Example.world0
    = (inr {[ "tx_json" := JNull ]}, Example.world0) ∧
  signIfSecretExists (C := Example.collaborators) (JNum (S754_zero true))
    {[ "tx_json" := JNull ]} Example.world0
    = (inr {[ "tx_json" := JNull ]}, Example.world0) ∧
  signIfSecretExists (C := Example.collaborators) JNull
    {[ "tx_json" := JNull ]} Example.world0
    = (inr {[ "tx_json" := JNull ]}, Example.world0).
Proof.
  split; [|split].
  - apply (falsy_secret_skips_signing (C := Example.collaborators)
             (JStr "") _ Example.world0). reflexivity.
  - apply (falsy_secret_skips_signing (C := Example.collaborators)
             (JNum (S754_zero true)) _ Example.world0). reflexivity.
  - apply (falsy_secret_skips_signing (C := Example.collaborators)
             JNull _ Example.world0). reflexivity.
Defined.

(** C5. With the validator as specified, a request that goes to the full
    submission ([options.submit] is not [false]) without a secret is
    refused with a validation error and nothing has been done; the
    prepare-only mode accepts the same request and goes on to
    [createTxJSON]. *)
Theorem submit_mode_requires_secret `{Codec : AddressCodec}
    `{C : Collaborators}
    (transaction api : value) (o : gmap string value)
    (converter : converter_fn) (w : World PRNG) (address : value) :
  validate_addressAndSecret = spec_addressAndSecret ->
  validate_addressAndMaybeSecret = spec_addressAndMaybeSecret ->
  source_address transaction = inr address ->
  (o !! "submit" ≠ Some (JBool false) ->
   ∃ e, is_validation_error e = true ∧
        transact transaction api JUndefined (JObj o) converter w
          = (Thrown e, w)) ∧
  (o !! "submit" = Some (JBool false) ->
   validateAddress address = None ->
   validate_options (JObj o) = None ->
   ∀ remote, get_prop api "remote" = inr remote ->
   ∃ r w', transact transaction api JUndefined (JObj o) converter w
             = (Callback r, w') ∧
           calls w' = CallCreateTxJSON :: calls w).
Proof.
  intros Hsec Hmaybe Ha. split.
  - intros Ho.
    exists (match validateAddress address with
            | Some e => e
            | None => InvalidSecret
            end).
    split.
    + unfold validateAddress.
      destruct address as [| | | | a | |]; try reflexivity.
      destruct (valid_address a); reflexivity.
    + rewrite (transact_on_other _ _ _ _ _ _ Ho).
      apply (submit_throws _ _ _ _ _ _ address); [exact Ha|].
      left. rewrite Hsec. unfold spec_addressAndSecret.
      destruct (validateAddress address); reflexivity.
  - intros Ho Hvalid Hopts remote Hremote.
    rewrite (transact_on_false _ _ _ _ _ _ Ho).
    unfold prepareAndOptionallySign, then_waterfall.
    cbv [mbind M_bind bind lift check ret throw].
    rewrite Ha, Hmaybe. unfold spec_addressAndMaybeSecret.
    rewrite Hvalid, Hopts, Hremote.
    unfold call_createTxJSON, logged, on_net.
    cbv [mbind M_bind bind]. simpl.
    destruct (createTxJSON transaction remote (JObj o) (net w))
      as [[e | prepared] n'] eqn:Hbuild; simpl.
    + eauto.
    + unfold formatResponse. cbv [mbind M_bind bind lift ret].
      destruct (converter _); simpl; eauto.
Qed.

Lemma submit_mode_requires_secret_witness :
  (∃ e, is_validation_error e = true ∧
        transact (C := Example.collaborators) Example.payment Example.api
          JUndefined (JObj ∅) Example.converter Example.world0
          = (Thrown e, Example.world0)) ∧
  (∃ r w', transact (C := Example.collaborators) Example.payment Example.api
             JUndefined (JObj {[ "submit" := JBool false ]})
             Example.converter Example.world0
             = (Callback r, w') ∧
           calls w' = CallCreateTxJSON :: calls Example.world0).
Proof.
  split.
  - apply (proj1 (submit_mode_requires_secret (Codec := Example.codec)
                    (C := Example.collaborators) Example.payment Example.api
                    ∅ Example.converter Example.world0 (JStr "rA")
                    eq_refl eq_refl eq_refl)).
    vm_compute; discriminate.
  - apply (proj2 (submit_mode_requires_secret (Codec := Example.codec)
                    (C := Example.collaborators) Example.payment Example.api
                    {[ "submit" := JBool false ]} Example.converter
                    Example.world0 (JStr "rA")
                    eq_refl eq_refl eq_refl))
      with (remote := JStr "remote"); reflexivity.
Defined.

(** C7. [loadArguments] fails exactly when [args] has a name that
    [defaults] does not have; the failure's message lists the offending
    names, all of them and no other. When every name is recognized it
    succeeds, and [args] is filled in from [defaults]. *)
Theorem loadArguments_fails_closed (args defaults : gmap string value) :
  (¬ dom args ⊆ dom defaults ->
   ∃ offending,
     loadArguments args defaults
       = inl (AssertionError
                ("Error in test code: unrecognized keyword argument(s): "
                 +:+ array_to_string offending)) ∧
     offending ≠ [] ∧
     ∀ k, k ∈ offending ↔ k ∈ dom args ∧ k ∉ dom defaults) ∧
  (dom args ⊆ dom defaults ->
   loadArguments args defaults = inr (JS.defaults args defaults)).
Proof.
  unfold loadArguments.
  pose proof (elem_of_difference_keys args defaults) as Hdiff.
  destruct (JS.difference (JS.keys args) (JS.keys defaults))
    as [|k0 rest] eqn:Hbad; simpl.
  - split; [|done].
    intros Hsub. exfalso. apply Hsub. intros k Hk.
    destruct (decide (k ∈ dom defaults)) as [|Hn]; [done|].
    pose proof (proj2 (Hdiff k) (conj Hk Hn)) as Hin.
    by apply elem_of_nil in Hin.
  - split.
    + intros _. exists (k0 :: rest). split; [done|]. split; [done|exact Hdiff].
    + intros Hsub. exfalso.
      destruct (proj1 (Hdiff k0)) as [Hin Hout]; [apply elem_of_cons; by left|].
      apply Hout, Hsub, Hin.
Qed.

Lemma loadArguments_fails_closed_witness :
  loadArguments (<["submit" := JBool true]> {[ "sumbit" := JBool false ]})
                (<["submit" := JBool false]> {[ "validated" := JBool true ]})
    = inl (AssertionError
             "Error in test code: unrecognized keyword argument(s): sumbit")
  ∧
  loadArguments {[ "submit" := JBool true ]}
                (<["submit" := JBool false]> {[ "validated" := JBool true ]})
    = inr (<["submit" := JBool true]> {[ "validated" := JBool true ]}).
Proof.
  split.
  - destruct (proj1 (loadArguments_fails_closed
                (<["submit" := JBool true]> {[ "sumbit" := JBool false ]})
                (<["submit" := JBool false]> {[ "validated" := JBool true ]})))
      as (offending & Hrun & _ & _).
    + intros Hsub.
      assert ("sumbit" ∈ dom (<["submit" := JBool false]>
                ({[ "validated" := JBool true ]} : gmap string value)))
        as Hin by (apply Hsub, elem_of_dom; by eexists).
      apply elem_of_dom in Hin. destruct Hin as [v Hv]. discriminate Hv.
    + reflexivity.
  - rewrite (proj2 (loadArguments_fails_closed {[ "submit" := JBool true ]}
                (<["submit" := JBool false]> {[ "validated" := JBool true ]}))).
    + reflexivity.
    + intros k Hk. apply elem_of_dom in Hk. apply elem_of_dom.
      destruct (decide (k = "submit")) as [->|Hne]; [by eexists|].
      rewrite lookup_singleton_ne in Hk by done. by destruct Hk.
Defined.

(** C9. Under [withDeterministicPRNG] a signing request produces the same
    signed blob whatever the state of the entropy source before it: the
    blob is the one the signer computes from a new mock, and the entropy
    source that was in place is put back. *)
Theorem sign_deterministic_under_mock {PRNG D : Type} (PRNGMock_new : PRNG)
    (sign : value -> value -> PRNG -> (error + D) * PRNG)
    (txJSON secret : value) (g1 g2 : Net PRNG) :
  let signed :=
    withDeterministicPRNG PRNGMock_new (sign_request sign txJSON secret)
      (fun r g => (r, g)) in
  (signed g1).1 = (signed g2).1 ∧
  (signed g1).1 = (sign txJSON secret PRNGMock_new).1 ∧
  (signed g1).2 = g1.
Proof.
  intros signed. subst signed.
  unfold withDeterministicPRNG, sign_request, set_sjcl_random. simpl.
  destruct (sign txJSON secret PRNGMock_new) as [r p]. simpl.
  destruct g1. done.
Qed.

(** ** The pending tracker *)

Module TrackerFacts.
Import PendingTracker.

Lemma run_app tr evs1 evs2 : run tr (evs1 ++ evs2) = run (run tr evs1) evs2.
Proof. apply foldl_app. Qed.

(** Ledger closes act on each entry separately. *)
Lemma run_closes_lookup (l : list Z) : forall tr k,
  entries (run tr (LedgerClose <$> l)) !! k =
    (fun e => foldl (fun e i => expire_after i e) e l) <$> entries tr !! k.
Proof.
  induction l as [|i l IH]; intros tr k; simpl.
  - by destruct (entries tr !! k).
  - unfold run in IH. rewrite IH. simpl. rewrite lookup_fmap.
    by destruct (entries tr !! k).
Qed.

Lemma active_lookup tr k e :
  active tr !! k = Some e ↔
  entries tr !! k = Some e ∧ entry_status e = pending.
Proof. unfold active. by rewrite map_lookup_filter_Some. Qed.

Lemma closes_from_closes L n :
  closes_from L n = LedgerClose <$> ((fun i => L + (i + 1)) <$> seqZ 0 n).
Proof. unfold closes_from. by rewrite <- list_fmap_compose. Qed.

Lemma closeLedgers_closes :
  deliver <$> closeLedgers [] = closes_from 0 (LEDGER_OFFSET + 2).
Proof. reflexivity. Qed.

Lemma reachable_entry_ok tr :
  reachable tr ->
  forall k e, entries tr !! k = Some e -> entry_ok (currentLedger tr) e.
Proof.
  induction 1 as [ledger | tr ev Hreach IH Hdel]; intros k e Hk.
  - simpl in Hk. by rewrite lookup_empty in Hk.
  - destruct ev as [a s | a s | i | a s]; simpl in *.
    + destruct (entries tr !! (a, s)) eqn:Has; [by eapply IH|].
      simpl in Hk. destruct (decide ((a, s) = k)) as [<-|Hne].
      * rewrite lookup_insert_eq in Hk. injection Hk as <-.
        unfold entry_ok, build_LastLedgerSequence, OFFSET, LEDGER_OFFSET.
        simpl. repeat split; [lia | lia | discriminate].
      * rewrite lookup_insert_ne in Hk by done. by eapply IH.
    + destruct (entries tr !! (a, s)) as [e0|] eqn:Has; [|by eapply IH].
      destruct (entry_status e0) eqn:Hst; simpl in *; try by eapply IH.
      destruct (decide ((a, s) = k)) as [<-|Hne].
      * rewrite lookup_insert_eq in Hk. injection Hk as <-.
        destruct (IH _ _ Has) as (Hsub & _ & _).
        unfold entry_ok; simpl. repeat split; [done | discriminate..].
      * rewrite lookup_insert_ne in Hk by done. by eapply IH.
    + rewrite lookup_fmap in Hk.
      destruct (entries tr !! k) as [e0|] eqn:Hk0; [|discriminate].
      injection Hk as <-. destruct (IH _ _ Hk0) as (Hsub & Hpend & Hexp).
      unfold entry_ok, expire_after.
      destruct (entry_status e0) eqn:Hst.
      * destruct (Z.ltb_spec (LastLedgerSequence e0) i); simpl.
        -- repeat split; [lia | discriminate | done].
        -- rewrite Hst. repeat split; [lia | lia | discriminate].
      * rewrite Hst. repeat split; [lia | discriminate..].
      * rewrite Hst. specialize (Hexp eq_refl).
        repeat split; [lia | discriminate | lia].
    + destruct (entries tr !! (a, s)) as [e0|] eqn:Has; [|by eapply IH].
      destruct (entry_status e0) eqn:Hst; simpl in *; try by eapply IH.
      destruct (decide ((a, s) = k)) as [<-|Hne].
      * by rewrite lookup_delete_eq in Hk.
      * rewrite lookup_delete_ne in Hk by done. by eapply IH.
Qed.

(** No step changes the record of an expired entry. *)
Lemma step_keeps_expired tr ev a s e :
  entries tr !! (a, s) = Some e ->
  entry_status e = expired ->
  entries (step tr ev) !! (a, s) = Some e.
Proof.
  intros Hk Hst. destruct ev as [a' s' | a' s' | i | a' s']; simpl in *.
  - destruct (entries tr !! (a', s')) eqn:Has; [done|]. simpl.
    rewrite lookup_insert_ne; [done|].
    intros Heq. rewrite Heq, Hk in Has. congruence.
  - destruct (entries tr !! (a', s')) as [e0|] eqn:Has; [|done].
    destruct (entry_status e0) eqn:Hst0; simpl; try done.
    rewrite lookup_insert_ne; [done|].
    intros Heq. rewrite Heq, Hk in Has. congruence.
  - rewrite lookup_fmap, Hk. simpl. unfold expire_after. by rewrite Hst.
  - destruct (entries tr !! (a', s')) as [e0|] eqn:Has; [|done].
    destruct (entry_status e0) eqn:Hst0; simpl; try done.
    rewrite lookup_delete_ne; [done|].
    intros Heq. rewrite Heq, Hk in Has. congruence.
Qed.

Lemma run_keeps_expired evs : forall tr a s e,
  entries tr !! (a, s) = Some e ->
  entry_status e = expired ->
  entries (run tr evs) !! (a, s) = Some e.
Proof.
  induction evs as [|ev evs IH]; intros tr a s e Hk Hst; simpl in *.
  - done.
  - apply IH; [|done]. by apply step_keeps_expired.
Qed.

Lemma not_active tr k e :
  entries tr !! k = Some e -> entry_status e ≠ pending -> active tr !! k = None.
Proof.
  intros Hk Hst. destruct (active tr !! k) as [e'|] eqn:Ha; [|done].
  apply active_lookup in Ha as [Hk' Hp]. congruence.
Qed.

End TrackerFacts.

Section TrackerClaims.
Import PendingTracker TrackerFacts.

Lemma expire_after_within i e :
  i <= LastLedgerSequence e -> expire_after i e = e.
Proof.
  intros Hi. unfold expire_after.
  destruct (entry_status e); [|done..].
  by destruct (Z.ltb_spec (LastLedgerSequence e) i); [lia|].
Qed.

Lemma closes_within (l : list Z) : forall e,
  Forall (fun i => i <= LastLedgerSequence e) l ->
  foldl (fun e i => expire_after i e) e l = e.
Proof.
  induction l as [|i l IH]; intros e Hall; simpl; [done|].
  inversion Hall; subst. rewrite expire_after_within by done. by apply IH.
Qed.

Lemma closes_on_terminal (l : list Z) : forall e,
  entry_status e ≠ pending ->
  foldl (fun e i => expire_after i e) e l = e.
Proof.
  induction l as [|i l IH]; intros e Hst; simpl; [done|].
  assert (expire_after i e = e) as ->; [|by apply IH].
  unfold expire_after. by destruct (entry_status e).
Qed.

Lemma closes_beyond (l : list Z) : forall e,
  entry_status e = pending ->
  Exists (fun i => LastLedgerSequence e < i) l ->
  foldl (fun e i => expire_after i e) e l = with_status expired e.
Proof.
  induction l as [|i l IH]; intros e Hst Hex; simpl.
  - inversion Hex.
  - destruct (Z.ltb_spec (LastLedgerSequence e) i) as [Hlt|Hge].
    + assert (expire_after i e = with_status expired e) as ->.
      { unfold expire_after. rewrite Hst.
        by destruct (Z.ltb_spec (LastLedgerSequence e) i); [|lia]. }
      by apply closes_on_terminal.
    + rewrite expire_after_within by done. apply IH; [done|].
      inversion Hex; subst; [lia|done].
Qed.

(** C2. A transaction submitted at ledger [L] gets
    [LastLedgerSequence = L + 3]. After the closes of ledgers
    [L+1 .. L+5] with no confirmation (for [L = 0], what [closeLedgers]
    sends) its entry is expired and the waiter is told [Expired]; after
    the closes of [L+1 .. L+n] with [n < 4] it is still pending. *)
Theorem expiry_after_window (tr : PendingTracker.t) (a : string) (s : Z) :
  entries tr !! (a, s) = None ->
  let L := currentLedger tr in
  let submitted := step tr (Submit a s) in
  LEDGER_OFFSET = 3 ∧
  LastLedgerSequence <$> entries submitted !! (a, s) = Some (L + 3) ∧
  deliver <$> closeLedgers [] = closes_from 0 5 ∧
  status_of (run submitted (closes_from L 5)) a s = Some expired ∧
  pipeline_result (run submitted (closes_from L 5)) a s
    = Some (inl Expired) ∧
  (forall n, 0 <= n < 4 ->
     status_of (run submitted (closes_from L n)) a s = Some pending ∧
     pipeline_result (run submitted (closes_from L n)) a s = None).
Proof.
  intros Hfresh L submitted.
  assert (entries submitted !! (a, s)
          = Some (mkEntry a s (L + 3) L pending)) as Hsub.
  { subst submitted. simpl. rewrite Hfresh. simpl.
    by rewrite lookup_insert_eq. }
  assert (status_of (run submitted (closes_from L 5)) a s = Some expired)
    as Hexp.
  { unfold status_of. rewrite closes_from_closes, run_closes_lookup, Hsub.
    cbn [fmap option_fmap option_map]. rewrite closes_beyond; [done..|].
    apply Exists_fmap, Exists_exists. exists 3. split; [|simpl; lia].
    apply elem_of_seqZ. lia. }
  assert (forall n, 0 <= n < 4 ->
            status_of (run submitted (closes_from L n)) a s = Some pending)
    as Hpend.
  { intros n Hn. unfold status_of.
    rewrite closes_from_closes, run_closes_lookup, Hsub.
    cbn [fmap option_fmap option_map]. rewrite closes_within; [done|].
    cbn [LastLedgerSequence].
    apply Forall_fmap, Forall_seqZ. intros i Hi. simpl. lia. }
  repeat split.
  - by rewrite Hsub.
  - exact Hexp.
  - unfold pipeline_result. by rewrite Hexp.
  - by apply Hpend.
  - unfold pipeline_result. by rewrite Hpend.
Qed.

Lemma expiry_after_window_witness :
  let submitted := step (empty 0) (Submit "rA" 1) in
  status_of (run submitted (deliver <$> closeLedgers [])) "rA" 1
    = Some expired ∧
  status_of (run submitted (closes_from 0 3)) "rA" 1 = Some pending.
Proof.
  intros submitted.
  destruct (expiry_after_window (empty 0) "rA" 1 eq_refl)
    as (_ & _ & Hclose & Hexp & _ & Hpend).
  split.
  - rewrite Hclose. exact Hexp.
  - apply (Hpend 3). lia.
Defined.

(** C3. The pending entries of the tracker are its active set; an entry
    that reached a terminal status has left it, and the tracker keeps its
    record. In every reachable state a pending entry is pending exactly
    when [submittedAtLedger <= currentLedger <= LastLedgerSequence], and
    both hold. A ledger close beyond [LastLedgerSequence] takes a pending
    entry to [expired]; an entry that has not been confirmed and whose
    window the current ledger has passed is expired and out of the active
    set; and no later event, whatever it is (a late confirmation for the
    same account and sequence, a cancellation, a resubmission, further
    closes), changes the record of an expired entry or brings it back. *)
Theorem pending_iff_within_window (tr : PendingTracker.t)
    (a : string) (s : Z) (e : PendingEntry) :
  reachable tr ->
  (active tr !! (a, s) = Some e ->
     (entry_status e = pending ↔
      submittedAtLedger e <= currentLedger tr <= LastLedgerSequence e) ∧
     entry_status e = pending ∧
     (forall i, LastLedgerSequence e < i ->
        status_of (step tr (LedgerClose i)) a s = Some expired)) ∧
  (entries tr !! (a, s) = Some e ->
     entry_status e ≠ succeeded ->
     LastLedgerSequence e < currentLedger tr ->
     entry_status e = expired ∧ active tr !! (a, s) = None) ∧
  (entries tr !! (a, s) = Some e ->
     entry_status e = expired ->
     LastLedgerSequence e < currentLedger tr ∧
     forall evs,
       entries (run tr evs) !! (a, s) = Some e ∧
       status_of (run tr evs) a s = Some expired ∧
       active (run tr evs) !! (a, s) = None).
Proof.
  intros Hreach. split; [|split].
  - intros Ha. apply active_lookup in Ha as [Hk Hp].
    destruct (reachable_entry_ok tr Hreach _ _ Hk) as (Hsub & Hpend & _).
    split; [|split; [exact Hp|]].
    + split; [intros _; specialize (Hpend Hp); lia | by intros _].
    + intros i Hi. unfold status_of. simpl. rewrite lookup_fmap, Hk. simpl.
      unfold expire_after. rewrite Hp.
      by destruct (Z.ltb_spec (LastLedgerSequence e) i); [|lia].
  - intros Hk Hns Hlt.
    destruct (reachable_entry_ok tr Hreach _ _ Hk) as (_ & Hpend & _).
    assert (entry_status e = expired) as Hst.
    { destruct (entry_status e) eqn:Hst; [|done|done].
      specialize (Hpend eq_refl). lia. }
    split; [exact Hst|]. apply (not_active tr _ e Hk). by rewrite Hst.
  - intros Hk Hst.
    destruct (reachable_entry_ok tr Hreach _ _ Hk) as (_ & _ & Hexp).
    split; [by apply Hexp|]. intros evs.
    pose proof (run_keeps_expired evs tr a s e Hk Hst) as Hrun.
    split; [exact Hrun|]. split.
    + unfold status_of. by rewrite Hrun, <- Hst.
    + apply (not_active _ _ e Hrun). by rewrite Hst.
Qed.

Lemma pending_iff_within_window_witness :
  let waiting := run (empty 0) (Submit "rA" 1 :: closes_from 0 2) in
  let lapsed := step waiting (LedgerClose 4) in
  (submittedAtLedger (mkEntry "rA" 1 3 0 pending) <= currentLedger waiting
     <= LastLedgerSequence (mkEntry "rA" 1 3 0 pending)) ∧
  status_of lapsed "rA" 1 = Some expired ∧
  status_of (run lapsed [Confirm "rA" 1; Cancel "rA" 1; Submit "rA" 1;
                         LedgerClose 9; Confirm "rA" 1]) "rA" 1
    = Some expired.
Proof.
  intros waiting lapsed.
  assert (reachable waiting) as Hwaiting.
  { subst waiting.
    change (reachable (step (step (step (empty 0) (Submit "rA" 1))
                         (LedgerClose 1)) (LedgerClose 2))).
    repeat (apply reachable_step; [|vm_compute; done]).
    apply reachable_empty. }
  assert (reachable lapsed) as Hlapsed.
  { subst lapsed. apply reachable_step; [exact Hwaiting|vm_compute; done]. }
  destruct (pending_iff_within_window waiting "rA" 1
              (mkEntry "rA" 1 3 0 pending) Hwaiting) as (Hpending & _ & _).
  destruct (Hpending ltac:(reflexivity)) as (Hiff & Hp & Hclose).
  destruct (pending_iff_within_window lapsed "rA" 1
              (mkEntry "rA" 1 3 0 expired) Hlapsed) as (_ & _ & Hexpired).
  destruct (Hexpired ltac:(reflexivity) ltac:(reflexivity)) as (_ & Hlater).
  split; [by apply Hiff|]. split.
  - apply Hclose. simpl. lia.
  - apply Hlater.
Defined.

End TrackerClaims.

(** ** More on the pipeline *)

Ltac run_pipeline :=
  unfold prepareAndOptionallySign, prepareAndSignAndSubmit, then_waterfall,
    signIfSecretExists, formatResponse,
    call_createTxJSON, call_sign, call_submit, logged, on_net;
  cbv [mbind M_bind bind lift check ret throw mret M_ret].

(** X1. With a truthy secret the signing stage calls [sign] once, on the
    prepared [tx_json], and returns the prepared object overlaid with what
    [sign] returned: a field of the signer's response replaces the prepared
    one, the other prepared fields ([tx_json], which the signer is handed,
    aside) stay, and the entropy source is where the signer left it. *)
Theorem signIfSecretExists_overlays_signature `{C : Collaborators}
    (secret : value) (prepared signResponse : gmap string value)
    (w : World PRNG) (p : PRNG) :
  truthy secret = true ->
  sign (default JUndefined (prepared !! "tx_json")) secret
       (sjcl_random (net w)) = (inr signResponse, p) ->
  ∃ result w',
    signIfSecretExists secret prepared w = (inr result, w') ∧
    calls w' = CallSign :: calls w ∧
    sjcl_random (net w') = p ∧
    registry (net w') = registry (net w) ∧
    (∀ k v, signResponse !! k = Some v -> result !! k = Some v) ∧
    (∀ k, k ≠ "tx_json" -> signResponse !! k = None ->
          result !! k = prepared !! k).
Proof.
  intros Ht Hs. run_pipeline. rewrite Ht. simpl. rewrite Hs. simpl.
  eexists _, _. split; [reflexivity|]. simpl.
  repeat split.
  - intros k v Hk.
    change (assign ∅ [prepared; signResponse] !! k = Some v).
    by rewrite assign_two_lookup, Hk.
  - intros k _ Hk.
    change (assign ∅ [prepared; signResponse] !! k = prepared !! k).
    by rewrite assign_two_lookup, Hk.
Qed.

Lemma signIfSecretExists_overlays_signature_witness :
  ∃ result w',
    signIfSecretExists (C := Example.collaborators) (JStr "sA")
      (<["hash" := JStr "stale"]> {[ "fee" := JStr "12" ]}) Example.world0
      = (inr result, w') ∧
    calls w' = [CallSign] ∧
    sjcl_random (net w') = 1 ∧
    result !! "hash" = Some (JStr "H") ∧
    result !! "fee" = Some (JStr "12").
Proof.
  destruct (signIfSecretExists_overlays_signature (C := Example.collaborators)
              (JStr "sA") (<["hash" := JStr "stale"]> {[ "fee" := JStr "12" ]})
              (<["tx_blob" := JNum (S754_finite false 1 0)]>
                 {[ "hash" := JStr "H" ]})
              Example.world0 1 eq_refl eq_refl)
    as (result & w' & Hrun & Hcalls & Hp & _ & Hwin & Hkeep).
  exists result, w'. repeat split; try done.
  - by apply Hwin.
  - by rewrite Hkeep.
Defined.

(** X2. The prepare-only pipeline never calls [transactions.submit]: it
    ends having called nothing, [createTxJSON] alone, or [createTxJSON] and
    then [sign], and [sign] only for a truthy secret. *)
Theorem prepare_only_never_submits `{C : Collaborators}
    (transaction api secret options : value) (converter : converter_fn)
    (w : World PRNG) :
  let r := prepareAndOptionallySign transaction api secret options converter w in
  calls r.2 = calls w ∨
  calls r.2 = CallCreateTxJSON :: calls w ∨
  (truthy secret = true ∧ calls r.2 = CallSign :: CallCreateTxJSON :: calls w).
Proof.
  run_pipeline.
  destruct (source_address transaction); simpl; [by left|].
  destruct (validate_addressAndMaybeSecret _ _); simpl; [by left|].
  destruct (validate_options _); simpl; [by left|].
  destruct (get_prop api "remote"); simpl; [by left|].
  destruct (createTxJSON _ _ _ _) as [[e|prepared] n]; simpl; [by right; left|].
  destruct (truthy secret) eqn:Ht; simpl.
  - destruct (sign _ _ _) as [[e|s] p]; simpl; [by right; right|].
    destruct (converter _); simpl; by right; right.
  - destruct (converter _); simpl; by right; left.
Qed.

(** X3. The full-submission pipeline of [transact.js] never calls
    [createTxJSON] or [sign] itself, and calls [transactions.submit] at most
    once. When [transaction.tx_json.Account] can be read and both
    validations pass it calls [transactions.submit] exactly once, calls
    back, and leaves the shared state as the submission left it; in every
    other case it calls nothing and throws, the world being as it was. *)
Theorem submit_pipeline_submits_once `{C : Collaborators}
    (transaction api secret options : value) (converter : converter_fn)
    (w : World PRNG) :
  let r := prepareAndSignAndSubmit transaction api secret options converter w in
  (calls r.2 = calls w ∨ calls r.2 = CallSubmit :: calls w) ∧
  (forall address,
     source_address transaction = inr address ->
     validate_addressAndSecret address secret = None ->
     validate_options options = None ->
     (∃ result, r.1 = Callback result) ∧
     calls r.2 = CallSubmit :: calls w ∧
     net r.2 = (transactions_submit api transaction secret options (net w)).2) ∧
  ((forall address,
      source_address transaction = inr address ->
      validate_addressAndSecret address secret = None ->
      validate_options options = None -> False) ->
   ∃ e, r = (Thrown e, w)).
Proof.
  intros r. subst r. split; [|split].
  - run_pipeline.
    destruct (source_address transaction); simpl; [by left|].
    destruct (validate_addressAndSecret _ _); simpl; [by left|].
    destruct (validate_options _); simpl; [by left|].
    destruct (transactions_submit _ _ _ _ _) as [[e|x] n]; simpl;
      [by right|].
    destruct (converter _); simpl; by right.
  - intros address Ha Hv Ho. run_pipeline. rewrite Ha, Hv, Ho. simpl.
    destruct (transactions_submit _ _ _ _ _) as [[e|x] n]; simpl; [eauto|].
    destruct (converter _); simpl; eauto.
  - intros Hno. run_pipeline.
    destruct (source_address transaction) as [e|address] eqn:Ha; simpl;
      [eauto|].
    destruct (validate_addressAndSecret _ _) eqn:Hv; simpl; [eauto|].
    destruct (validate_options _) eqn:Ho; simpl; [eauto|].
    exfalso. by apply (Hno address).
Qed.

Lemma submit_pipeline_submits_once_witness :
  calls (prepareAndSignAndSubmit (C := Example.collaborators) Example.payment
           Example.api (JStr "sA") (JObj ∅) Example.converter
           Example.world0).2 = [CallSubmit] ∧
  ∃ e, prepareAndSignAndSubmit (C := Example.collaborators) Example.payment
         Example.api JUndefined (JObj ∅) Example.converter Example.world0
       = (Thrown e, Example.world0).
Proof.
  split.
  - apply (proj1 (proj2 (submit_pipeline_submits_once
             (C := Example.collaborators) Example.payment Example.api
             (JStr "sA") (JObj ∅) Example.converter Example.world0))
             (JStr "rA")); reflexivity.
  - apply (proj2 (proj2 (submit_pipeline_submits_once
             (C := Example.collaborators) Example.payment Example.api
             JUndefined (JObj ∅) Example.converter Example.world0))).
    intros address [= <-] Hv _. discriminate Hv.
Defined.

Lemma prepare_outcome_cases `{C : Collaborators}
    (transaction api secret options : value) (converter : converter_fn)
    (w : World PRNG) :
  (∃ e, prepareAndOptionallySign transaction api secret options converter w
          = (Thrown e, w)) ∨
  (∃ r w', prepareAndOptionallySign transaction api secret options converter w
             = (Callback r, w')).
Proof.
  run_pipeline.
  destruct (source_address transaction); simpl; [left; eauto|].
  destruct (validate_addressAndMaybeSecret _ _); simpl; [left; eauto|].
  destruct (validate_options _); simpl; [left; eauto|].
  destruct (get_prop api "remote"); simpl; [left; eauto|].
  right. destruct (createTxJSON _ _ _ _) as [[e|prepared] n]; simpl; [eauto|].
  destruct (truthy secret); simpl.
  - destruct (sign _ _ _) as [[e|s] p]; simpl; [eauto|].
    destruct (converter _); simpl; eauto.
  - destruct (converter _); simpl; eauto.
Qed.

Lemma submit_outcome_cases `{C : Collaborators}
    (transaction api secret options : value) (converter : converter_fn)
    (w : World PRNG) :
  (∃ e, prepareAndSignAndSubmit transaction api secret options converter w
          = (Thrown e, w)) ∨
  (∃ r w', prepareAndSignAndSubmit transaction api secret options converter w
             = (Callback r, w')).
Proof.
  run_pipeline.
  destruct (source_address transaction); simpl; [left; eauto|].
  destruct (validate_addressAndSecret _ _); simpl; [left; eauto|].
  destruct (validate_options _); simpl; [left; eauto|].
  right. destruct (transactions_submit _ _ _ _ _) as [[e|x] n]; simpl; [eauto|].
  destruct (converter _); simpl; eauto.
Qed.

(** X4. Whenever [transact] throws, whatever the arguments and whatever
    the error, the world is as it was before the call: nothing has been
    called and nothing registered. *)
Theorem transact_throw_leaves_world `{C : Collaborators}
    (transaction api secret options : value) (converter : converter_fn)
    (w w' : World PRNG) (e : error) :
  transact transaction api secret options converter w = (Thrown e, w') ->
  w' = w.
Proof.
  unfold transact.
  destruct (get_prop options "submit") as [e0|submit]; [congruence|].
  destruct (strict_eq_false submit).
  - destruct (prepare_outcome_cases transaction api secret options converter w)
      as [[e1 ->] | (r & w1 & ->)]; congruence.
  - destruct (submit_outcome_cases transaction api secret options converter w)
      as [[e1 ->] | (r & w1 & ->)]; congruence.
Qed.

Lemma transact_throw_leaves_world_witness :
  (transact (C := Example.collaborators) Example.payment Example.api
     JUndefined (JObj ∅) Example.converter Example.world0).2
  = Example.world0.
Proof.
  apply (transact_throw_leaves_world (C := Example.collaborators)
           Example.payment Example.api JUndefined (JObj ∅) Example.converter
           Example.world0 _ InvalidSecret).
  reflexivity.
Defined.

(** X5. In the prepare-only pipeline a failure after the validations goes
    to the callback and ends the run: an error of [createTxJSON] is handed
    over without [sign] being called even for a truthy secret, an exception
    of [sign] is handed over, and so is an exception of the converter (in a
    run without signing). None of them is thrown to the caller. *)
Theorem prepare_failures_reach_callback `{C : Collaborators}
    (transaction api secret options : value) (converter : converter_fn)
    (w : World PRNG) (address remote : value) (e : error) :
  source_address transaction = inr address ->
  validate_addressAndMaybeSecret address secret = None ->
  validate_options options = None ->
  get_prop api "remote" = inr remote ->
  (∀ n, createTxJSON transaction remote options (net w) = (inl e, n) ->
     prepareAndOptionallySign transaction api secret options converter w
       = (Callback (inl e), mkWorld n (CallCreateTxJSON :: calls w))) ∧
  (∀ prepared n p,
     createTxJSON transaction remote options (net w) = (inr prepared, n) ->
     truthy secret = true ->
     sign (default JUndefined (prepared !! "tx_json")) secret (sjcl_random n)
       = (inl e, p) ->
     prepareAndOptionallySign transaction api secret options converter w
       = (Callback (inl e),
          mkWorld (set_sjcl_random p n)
                  (CallSign :: CallCreateTxJSON :: calls w))) ∧
  (∀ prepared n,
     createTxJSON transaction remote options (net w) = (inr prepared, n) ->
     truthy secret = false ->
     converter [JObj prepared; JObj ∅] = inl e ->
     prepareAndOptionallySign transaction api secret options converter w
       = (Callback (inl e), mkWorld n (CallCreateTxJSON :: calls w))).
Proof.
  intros Ha Hv Ho Hr. repeat split.
  - intros n Hb. run_pipeline. rewrite Ha, Hv, Ho, Hr. simpl.
    by rewrite Hb.
  - intros prepared n p Hb Ht Hs. run_pipeline. rewrite Ha, Hv, Ho, Hr. simpl.
    rewrite Hb. simpl. rewrite Ht. simpl. by rewrite Hs.
  - intros prepared n Hb Ht Hc. run_pipeline. rewrite Ha, Hv, Ho, Hr. simpl.
    rewrite Hb. simpl. rewrite Ht. simpl.
    change (∅ ∪ (prepared ∪ ∅)) with (assign ∅ [prepared; ∅]).
    rewrite assign_nothing. by rewrite Hc.
Qed.

Lemma prepare_failures_reach_callback_witness :
  let options := JObj {[ "submit" := JBool false ]} in
  prepareAndOptionallySign (C := Faulty.collaborators true) Example.payment
    Example.api (JStr "sA") options Example.converter Example.world0
    = (Callback (inl NetworkUnavailable),
       mkWorld (net Example.world0) [CallCreateTxJSON]) ∧
  (prepareAndOptionallySign (C := Faulty.collaborators false) Example.payment
     Example.api (JStr "sA") options Example.converter Example.world0).1
    = Callback (inl InvalidSecret) ∧
  (prepareAndOptionallySign (C := Example.collaborators) Example.payment
     Example.api JUndefined options (fun _ => inl UnsupportedTransactionType)
     Example.world0).1
    = Callback (inl UnsupportedTransactionType).
Proof.
  intros options. split; [|split].
  - apply (proj1 (prepare_failures_reach_callback
             (C := Faulty.collaborators true) Example.payment Example.api
             (JStr "sA") options Example.converter Example.world0
             (JStr "rA") (JStr "remote") NetworkUnavailable
             eq_refl eq_refl eq_refl eq_refl)).
    reflexivity.
  - rewrite (proj1 (proj2 (prepare_failures_reach_callback
             (C := Faulty.collaborators false) Example.payment Example.api
             (JStr "sA") options Example.converter Example.world0
             (JStr "rA") (JStr "remote") InvalidSecret
             eq_refl eq_refl eq_refl eq_refl))
             {[ "tx_json" := JObj (<["Account" := JStr "rA"]>
                                     {[ "Destination" := JStr "rB" ]}) ]}
             (net Example.world0) 1); reflexivity.
  - rewrite (proj2 (proj2 (prepare_failures_reach_callback
             (C := Example.collaborators) Example.payment Example.api
             JUndefined options (fun _ => inl UnsupportedTransactionType)
             Example.world0
             (JStr "rA") (JStr "remote") UnsupportedTransactionType
             eq_refl eq_refl eq_refl eq_refl))
             {[ "tx_json" := JObj (<["Account" := JStr "rA"]>
                                     {[ "Destination" := JStr "rB" ]}) ]}
             (net Example.world0)); reflexivity.
Defined.

Lemma source_address_without_tx_json (t : gmap string value) :
  t !! "tx_json" = None ∨ t !! "tx_json" = Some JUndefined ∨
  t !! "tx_json" = Some JNull ->
  source_address (JObj t) = inl TypeError.
Proof.
  unfold source_address; simpl. by intros [-> | [-> | ->]].
Qed.

(** X6. The property accesses come before the validators: when [options]
    is [undefined] or [null], or the transaction has no [tx_json] (absent,
    [undefined] or [null]), [transact] throws a [TypeError] and the world is
    as it was, whatever the validators would have said. *)
Theorem transact_type_errors_first `{C : Collaborators}
    (transaction api secret options : value) (converter : converter_fn)
    (w : World PRNG) :
  (options = JUndefined ∨ options = JNull) ∨
  (∃ t o, transaction = JObj t ∧ options = JObj o ∧
          (t !! "tx_json" = None ∨ t !! "tx_json" = Some JUndefined ∨
           t !! "tx_json" = Some JNull)) ->
  transact transaction api secret options converter w = (Thrown TypeError, w).
Proof.
  intros [[-> | ->] | (t & o & -> & -> & Ht)]; [reflexivity..|].
  pose proof (source_address_without_tx_json t Ht) as Hs.
  unfold transact. simpl.
  destruct (strict_eq_false _); run_pipeline; by rewrite Hs.
Qed.

Lemma transact_type_errors_first_witness :
  transact (C := Example.collaborators) Example.payment Example.api
    (JStr "nonsense") JUndefined Example.converter Example.world0
    = (Thrown TypeError, Example.world0) ∧
  transact (C := Example.collaborators) (JObj {[ "Account" := JStr "rA" ]})
    Example.api (JStr "nonsense") (JObj {[ "sumbit" := JNull ]})
    Example.converter Example.world0
    = (Thrown TypeError, Example.world0).
Proof.
  split.
  - apply (transact_type_errors_first (C := Example.collaborators)).
    left. by left.
  - apply (transact_type_errors_first (C := Example.collaborators)).
    right. exists {[ "Account" := JStr "rA" ]}, {[ "sumbit" := JNull ]}.
    split; [reflexivity|]. split; [reflexivity|]. left. reflexivity.
Defined.

(** X7. [api.remote] is read only by the prepare-only pipeline and only
    after both validations: with [api] [undefined] or [null] and passing
    validations it throws a [TypeError] before [createTxJSON] is called,
    while the full-submission pipeline hands [api] to
    [transactions.submit] as it is and does not throw. *)
Theorem api_is_dereferenced_only_to_prepare `{C : Collaborators}
    (transaction api secret options : value) (converter : converter_fn)
    (w : World PRNG) (address : value) :
  api = JUndefined ∨ api = JNull ->
  source_address transaction = inr address ->
  validate_options options = None ->
  (validate_addressAndMaybeSecret address secret = None ->
   prepareAndOptionallySign transaction api secret options converter w
     = (Thrown TypeError, w)) ∧
  (validate_addressAndSecret address secret = None ->
   ∃ r w',
     prepareAndSignAndSubmit transaction api secret options converter w
       = (Callback r, w') ∧
     calls w' = CallSubmit :: calls w ∧
     net w' = (transactions_submit api transaction secret options (net w)).2).
Proof.
  intros Hapi Ha Ho. split; intros Hv; run_pipeline; rewrite Ha, Hv, Ho; simpl.
  - by destruct Hapi as [-> | ->].
  - destruct (transactions_submit _ _ _ _ _) as [[e|x] n]; simpl; [eauto|].
    destruct (converter _); simpl; eauto.
Qed.

Lemma api_is_dereferenced_only_to_prepare_witness :
  prepareAndOptionallySign (C := Example.collaborators) Example.payment
    JUndefined (JStr "sA") (JObj {[ "submit" := JBool false ]})
    Example.converter Example.world0
    = (Thrown TypeError, Example.world0) ∧
  ∃ r w',
    prepareAndSignAndSubmit (C := Example.collaborators) Example.payment
      JUndefined (JStr "sA") (JObj {[ "submit" := JBool false ]})
      Example.converter Example.world0
      = (Callback r, w') ∧
    calls w' = [CallSubmit].
Proof.
  destruct (api_is_dereferenced_only_to_prepare (C := Example.collaborators)
              Example.payment JUndefined (JStr "sA")
              (JObj {[ "submit" := JBool false ]}) Example.converter
              Example.world0 (JStr "rA") (or_introl eq_refl) ltac:(reflexivity) ltac:(reflexivity))
    as [Hprep Hsub].
  split; [by apply Hprep|].
  destruct (Hsub ltac:(reflexivity)) as (r & w' & Hrun & Hcalls & _). eauto.
Defined.

(** X8. When both validations pass, the full-submission pipeline calls
    back with what the converter makes of the submission result alone: the
    converter is applied to the one argument, its object is the response as
    it is (nothing of the submission result is merged in), and an error of
    the submission or an exception of the converter is the callback's
    error. *)
Theorem submit_pipeline_response `{C : Collaborators}
    (transaction api secret options : value) (converter : converter_fn)
    (w : World PRNG) (address : value) :
  source_address transaction = inr address ->
  validate_addressAndSecret address secret = None ->
  validate_options options = None ->
  ∀ r n, transactions_submit api transaction secret options (net w) = (r, n) ->
    prepareAndSignAndSubmit transaction api secret options converter w
      = (Callback
           match r with
           | inl e => inl e
           | inr submitted =>
               match converter [submitted] with
               | inl e => inl e
               | inr converted => inr (JObj converted)
               end
           end,
         mkWorld n (CallSubmit :: calls w)).
Proof.
  intros Ha Hv Ho r n Hs. run_pipeline. rewrite Ha, Hv, Ho. simpl.
  rewrite Hs. destruct r as [e|submitted]; simpl; [done|].
  by destruct (converter _).
Qed.

Lemma submit_pipeline_response_witness :
  prepareAndSignAndSubmit (C := Example.collaborators) Example.payment
    Example.api (JStr "sA") (JObj ∅) Example.converter Example.world0
    = (Callback (inr (JObj {[ "status" := JStr "ok" ]})),
       mkWorld (mkNet 0 (PendingTracker.step (PendingTracker.empty 0)
                           (PendingTracker.Submit "rA" 1)))
               [CallSubmit]) ∧
  (prepareAndSignAndSubmit (C := Faulty.collaborators false) Example.payment
     Example.api (JStr "sA") (JObj ∅) Example.converter Example.world0).1
    = Callback (inl SubmissionRejected).
Proof.
  split.
  - apply (submit_pipeline_response (C := Example.collaborators)
             Example.payment Example.api (JStr "sA") (JObj ∅)
             Example.converter Example.world0 (JStr "rA")
             ltac:(reflexivity) ltac:(reflexivity) ltac:(reflexivity)
             (inr (JObj {[ "success" := JBool true ]}))).
    reflexivity.
  - rewrite (submit_pipeline_response (C := Faulty.collaborators false)
             Example.payment Example.api (JStr "sA") (JObj ∅)
             Example.converter Example.world0 (JStr "rA")
             ltac:(reflexivity) ltac:(reflexivity) ltac:(reflexivity)
             (inl SubmissionRejected)
             (net Example.world0)); reflexivity.
Defined.

(** X9. A signed prepare, end to end: with passing validations, a prepared
    object from [createTxJSON], a truthy secret and a signer's response, the
    converter is applied to the signed object (and an empty object), and in
    the response a key has the converter's value if the converter supplies
    it, else the signer's, else the prepared one ([tx_json], which the
    signer is handed, aside). [createTxJSON] and then [sign] have been
    called, and nothing else. *)
Theorem signed_prepare_precedence `{C : Collaborators}
    (transaction api secret options : value) (converter : converter_fn)
    (w : World PRNG) (address remote : value)
    (prepared signResponse converted : gmap string value)
    (n : Net PRNG) (p : PRNG) :
  source_address transaction = inr address ->
  validate_addressAndMaybeSecret address secret = None ->
  validate_options options = None ->
  get_prop api "remote" = inr remote ->
  createTxJSON transaction remote options (net w) = (inr prepared, n) ->
  truthy secret = true ->
  sign (default JUndefined (prepared !! "tx_json")) secret (sjcl_random n)
    = (inr signResponse, p) ->
  converter [JObj (assign ∅ [prepared; signResponse]); JObj ∅]
    = inr converted ->
  ∃ response,
    prepareAndOptionallySign transaction api secret options converter w
      = (Callback (inr (JObj response)),
         mkWorld (set_sjcl_random p n)
                 (CallSign :: CallCreateTxJSON :: calls w)) ∧
    ∀ k, k ≠ "tx_json" ->
         response !! k =
           match converted !! k, signResponse !! k with
           | Some v, _ => Some v
           | None, Some v => Some v
           | None, None => prepared !! k
           end.
Proof.
  intros Ha Hv Ho Hr Hb Ht Hs Hc.
  exists (assign ∅ [assign ∅ [prepared; signResponse]; converted]). split.
  - run_pipeline. rewrite Ha, Hv, Ho, Hr. simpl. rewrite Hb. simpl.
    rewrite Ht. simpl. rewrite Hs. simpl.
    change (signResponse ∪ (prepared ∪ ∅))
      with (assign ∅ [prepared; signResponse]).
    by rewrite Hc.
  - intros k _. rewrite !assign_two_lookup.
    by destruct (converted !! k), (signResponse !! k).
Qed.

Lemma signed_prepare_precedence_witness :
  ∃ response,
    (prepareAndOptionallySign (C := Example.collaborators) Example.payment
       Example.api (JStr "sA") (JObj {[ "submit" := JBool false ]})
       (fun _ => inr {[ "hash" := JStr "shown" ]}) Example.world0).1
      = Callback (inr (JObj response)) ∧
    response !! "hash" = Some (JStr "shown") ∧
    response !! "tx_blob" = Some (JNum (S754_finite false 1 0)) ∧
    response !! "fee" = None.
Proof.
  destruct (signed_prepare_precedence (C := Example.collaborators)
              Example.payment Example.api (JStr "sA")
              (JObj {[ "submit" := JBool false ]})
              (fun _ => inr {[ "hash" := JStr "shown" ]}) Example.world0
              (JStr "rA") (JStr "remote")
              {[ "tx_json" := JObj (<["Account" := JStr "rA"]>
                                      {[ "Destination" := JStr "rB" ]}) ]}
              (<["tx_blob" := JNum (S754_finite false 1 0)]>
                 {[ "hash" := JStr "H" ]})
              {[ "hash" := JStr "shown" ]}
              (net Example.world0) 1
              ltac:(reflexivity) ltac:(reflexivity) ltac:(reflexivity)
              ltac:(reflexivity) ltac:(reflexivity) ltac:(reflexivity)
              ltac:(reflexivity) ltac:(reflexivity))
    as (response & Hrun & Hk).
  exists response. split; [by rewrite Hrun|].
  rewrite !Hk by done. repeat split.
Defined.

(** ** More on the test harness *)

Lemma difference_keys_nil (args defaults : gmap string value) :
  dom args ⊆ dom defaults ->
  JS.difference (JS.keys args) (JS.keys defaults) = [].
Proof.
  intros Hsub. apply elem_of_nil_inv. intros k Hk.
  apply elem_of_difference_keys in Hk as [Hin Hout]. by apply Hout, Hsub.
Qed.

Lemma defaults_lookup (o d : gmap string value) (k : string) :
  JS.defaults o d !! k =
    match o !! k with
    | Some JUndefined =>
        match d !! k with Some x => Some x | None => Some JUndefined end
    | Some v => Some v
    | None => if decide (k ∈ Object_prototype_members) then None else d !! k
    end.
Proof.
  unfold JS.defaults. rewrite lookup_merge, map_lookup_filter. simpl.
  destruct (o !! k) as [v|] eqn:Hk; simpl.
  - destruct (d !! k) as [x|]; simpl; [|by destruct v].
    rewrite option_guard_True by (right; by eexists). simpl. by destruct v.
  - destruct (d !! k) as [x|]; simpl; [|by case_decide].
    destruct (decide (k ∈ Object_prototype_members)) as [Hin|Hout].
    + rewrite option_guard_False; [done|].
      intros [Hn|[? ?]]; [by apply Hn|discriminate].
    + rewrite option_guard_True by (by left). done.
Qed.

(** X10. When every name of [args] is a name of [defaults], [loadArguments]
    succeeds and fills [args] in: an argument that was given and is not
    [undefined] keeps its value ([null], [false] and [0] included), one
    given as [undefined] gets the default, and a missing one gets the
    default unless its name is a member of [Object.prototype] ([toString],
    [constructor], ...), in which case it stays missing. So the filled
    arguments have no name outside [defaults], and have exactly the names of
    [defaults] when each default named like a member of [Object.prototype]
    was given. *)
Theorem loadArguments_fills_in (args defaults : gmap string value) :
  dom args ⊆ dom defaults ->
  ∃ filled,
    loadArguments args defaults = inr filled ∧
    (∀ k, filled !! k =
            match args !! k with
            | Some JUndefined => defaults !! k
            | Some v => Some v
            | None =>
                if decide (k ∈ Object_prototype_members) then None
                else defaults !! k
            end) ∧
    dom filled ⊆ dom defaults ∧
    ((∀ k, k ∈ dom defaults -> k ∈ Object_prototype_members -> k ∈ dom args) ->
     dom filled = dom defaults).
Proof.
  intros Hsub. exists (JS.defaults args defaults).
  assert (∀ k, JS.defaults args defaults !! k =
               match args !! k with
               | Some JUndefined => defaults !! k
               | Some v => Some v
               | None =>
                   if decide (k ∈ Object_prototype_members) then None
                   else defaults !! k
               end) as Hlook.
  { intros k. rewrite defaults_lookup.
    destruct (args !! k) as [v|] eqn:Hk; [|done].
    assert (is_Some (defaults !! k)) as [x Hx].
    { apply elem_of_dom, Hsub, elem_of_dom. by eexists. }
    rewrite Hx. by destruct v. }
  assert (∀ k, k ∈ dom (JS.defaults args defaults) -> k ∈ dom defaults)
    as Hin.
  { intros k. rewrite !elem_of_dom, Hlook.
    destruct (args !! k) as [v|] eqn:Hk.
    - intros _. apply elem_of_dom, Hsub, elem_of_dom. by eexists.
    - by case_decide; [intros []|]. }
  split; [unfold loadArguments; by rewrite difference_keys_nil|].
  split; [exact Hlook|]. split; [exact Hin|].
  intros Hgiven. apply set_eq. intros k. split; [apply Hin|].
  intros Hd. rewrite elem_of_dom, Hlook.
  destruct (args !! k) as [v|] eqn:Hk.
  - apply elem_of_dom in Hd. by destruct v.
  - case_decide as Hm; [|by apply elem_of_dom].
    apply (Hgiven k Hd), elem_of_dom in Hm. rewrite Hk in Hm. by destruct Hm.
Qed.

Lemma loadArguments_fills_in_witness :
  ∃ filled,
    loadArguments (<["submit" := JUndefined]> {[ "validated" := JNull ]})
      (<["submit" := JBool true]>
         (<["validated" := JBool true]>
            (<["ledger" := JStr "current"]> {[ "toString" := JStr "x" ]})))
      = inr filled ∧
    filled !! "submit" = Some (JBool true) ∧
    filled !! "validated" = Some JNull ∧
    filled !! "ledger" = Some (JStr "current") ∧
    filled !! "toString" = None.
Proof.
  destruct (loadArguments_fills_in
              (<["submit" := JUndefined]> {[ "validated" := JNull ]})
              (<["submit" := JBool true]>
                 (<["validated" := JBool true]>
                    (<["ledger" := JStr "current"]>
                       {[ "toString" := JStr "x" ]}))))
    as (filled & Hrun & Hk & _).
  - intros k Hin. apply elem_of_dom in Hin. apply elem_of_dom.
    destruct (decide (k = "submit")) as [->|Hs]; [by eexists|].
    destruct (decide (k = "validated")) as [->|Hv]; [by eexists|].
    rewrite lookup_insert_ne, lookup_singleton_ne in Hin by done.
    by destruct Hin.
  - exists filled. split; [exact Hrun|].
    rewrite (Hk "submit"), (Hk "validated"), (Hk "ledger"), (Hk "toString").
    vm_compute. repeat split.
Defined.

(** X11. [loadArguments] is idempotent: loading the filled arguments
    against the same defaults succeeds and changes nothing. *)
Theorem loadArguments_idempotent (args defaults filled : gmap string value) :
  loadArguments args defaults = inr filled ->
  loadArguments filled defaults = inr filled.
Proof.
  unfold loadArguments.
  destruct (JS.difference (JS.keys args) (JS.keys defaults)) eqn:Hbad;
    simpl; [|discriminate].
  intros [= <-].
  assert (∀ k, JS.defaults (JS.defaults args defaults) defaults !! k
               = JS.defaults args defaults !! k) as Hsame.
  { intros k. rewrite (defaults_lookup (JS.defaults args defaults)).
    rewrite !defaults_lookup.
    destruct (args !! k) as [[]|], (defaults !! k) as [[]|];
      try reflexivity; by case_decide. }
  assert (JS.difference (JS.keys (JS.defaults args defaults))
                        (JS.keys defaults) = []) as ->.
  { apply elem_of_nil_inv. intros k Hk.
    apply elem_of_difference_keys in Hk as [Hin Hout].
    apply elem_of_dom in Hin as [v Hv].
    rewrite defaults_lookup in Hv.
    destruct (args !! k) as [a|] eqn:Ha.
    - assert (k ∈ JS.difference (JS.keys args) (JS.keys defaults)) as Hin.
      { apply elem_of_difference_keys. split; [|done].
        apply elem_of_dom. by eexists. }
      rewrite Hbad in Hin. by apply elem_of_nil in Hin.
    - apply Hout, elem_of_dom. case_decide; [discriminate|by eexists]. }
  simpl. f_equal. by apply map_eq.
Qed.

Lemma loadArguments_idempotent_witness :
  loadArguments (<["submit" := JBool true]> {[ "validated" := JBool false ]})
                (<["submit" := JBool false]> {[ "validated" := JBool false ]})
    = inr (<["submit" := JBool true]> {[ "validated" := JBool false ]}).
Proof.
  apply (loadArguments_idempotent {[ "submit" := JBool true ]}
           (<["submit" := JBool false]> {[ "validated" := JBool false ]})).
  vm_compute. reflexivity.
Defined.

(** X12. [withDeterministicPRNG] scopes the entropy source and nothing
    else: the request runs from a new mock whatever source was installed,
    what it did to the rest of the shared state stays, and [done] sees the
    source that was installed before, even when the request replaced the
    mock itself. A request that never calls back leaves the mock
    installed, and [done] is not called. *)
Theorem withDeterministicPRNG_scopes_entropy {PRNG D R : Type}
    (PRNGMock_new : PRNG)
    (body : Net PRNG -> (error + D) * Net PRNG)
    (stuck : Net PRNG -> R) (done : error + D -> Net PRNG -> R)
    (g : Net PRNG) :
  let after := body (set_sjcl_random PRNGMock_new g) in
  withDeterministicPRNG PRNGMock_new (request_of body) done g
    = done after.1 (mkNet (sjcl_random g) (registry after.2)) ∧
  withDeterministicPRNG PRNGMock_new (fun _ => stuck) done g
    = stuck (mkNet PRNGMock_new (registry g)).
Proof.
  unfold withDeterministicPRNG, request_of, set_sjcl_random. simpl.
  by destruct (body _) as [r g'].
Qed.

Lemma closeLedgers_appends (conn : list message) (l : list Z) :
  foldl (fun c i => c ++ [ledgerClose (i + 1)]) conn l
    = conn ++ ((fun i => ledgerClose (i + 1)) <$> l).
Proof.
  revert conn. induction l as [|i l IH]; intros conn; simpl.
  - by rewrite app_nil_r.
  - by rewrite IH, <- app_assoc.
Qed.

(** X13. [closeLedgers] keeps what the connection has sent and sends
    after it the closes of ledgers 1 to 5, in this order, whatever was sent
    before: the indices are absolute, so a second call sends the same five
    closes again, not the next five. *)
Theorem closeLedgers_sends_one_to_five (conn : list message) :
  closeLedgers conn = conn ++ (ledgerClose <$> [1; 2; 3; 4; 5]) ∧
  length (closeLedgers conn) = (length conn + 5)%nat ∧
  closeLedgers (closeLedgers conn)
    = conn ++ (ledgerClose <$> [1; 2; 3; 4; 5; 1; 2; 3; 4; 5]).
Proof.
  assert (∀ c, closeLedgers c = c ++ (ledgerClose <$> [1; 2; 3; 4; 5])) as H.
  { intros c. unfold closeLedgers. by rewrite closeLedgers_appends. }
  split; [apply H|]. split.
  - rewrite H, length_app. reflexivity.
  - rewrite !H, <- app_assoc. reflexivity.
Qed.

Lemma string_app_assoc (a b c : string) : (a +:+ b) +:+ c = a +:+ (b +:+ c).
Proof.
  induction a as [|x a IH]; [reflexivity|].
  change (String x ((a +:+ b) +:+ c) = String x (a +:+ (b +:+ c))).
  by rewrite IH.
Qed.

Lemma string_app_cancel (a b c : string) : a +:+ b = a +:+ c -> b = c.
Proof.
  induction a as [|x a IH]; [done|].
  change (String x (a +:+ b) = String x (a +:+ c) -> b = c).
  intros [= H]. by apply IH.
Qed.

Lemma string_app_prefix (a b : string) : String.prefix a (a +:+ b) = true.
Proof.
  induction a as [|x a IH]; [by destruct b|].
  change (String.prefix (String x a) (String x (a +:+ b)) = true). simpl.
  destruct (Ascii.ascii_dec x x); [exact IH|done].
Qed.

(** X14. The three URLs of the harness start with the same base
    [/v<version>] and never coincide: the sign and submit URLs differ, no
    prepare URL is the sign or the submit URL whatever its type, and two
    prepare URLs are equal only for equal types. *)
Theorem harness_urls_are_distinct (apiVersion type type' : string) :
  String.prefix (getURLBase apiVersion) (getSignURL apiVersion) = true ∧
  String.prefix (getURLBase apiVersion) (getSubmitURL apiVersion) = true ∧
  String.prefix (getURLBase apiVersion) (getPrepareURL apiVersion type)
    = true ∧
  getSignURL apiVersion ≠ getSubmitURL apiVersion ∧
  getPrepareURL apiVersion type ≠ getSignURL apiVersion ∧
  getPrepareURL apiVersion type ≠ getSubmitURL apiVersion ∧
  (getPrepareURL apiVersion type = getPrepareURL apiVersion type' ->
   type = type').
Proof.
  unfold getSignURL, getSubmitURL, getPrepareURL.
  repeat split; try apply string_app_prefix.
  - rewrite string_app_assoc. apply string_app_prefix.
  - intros H. apply string_app_cancel in H. discriminate H.
  - rewrite string_app_assoc. intros H. apply string_app_cancel in H.
    discriminate H.
  - rewrite string_app_assoc. intros H. apply string_app_cancel in H.
    discriminate H.
  - rewrite !string_app_assoc. intros H.
    by do 2 apply string_app_cancel in H.
Qed.

Lemma harness_urls_are_distinct_witness :
  getPrepareURL "1" "payment" = "/v1/transaction/prepare/payment" ∧
  getPrepareURL "1" "payment" ≠ getSignURL "1" ∧
  "payment" = "payment".
Proof.
  destruct (harness_urls_are_distinct "1" "payment" "payment")
    as (_ & _ & _ & _ & Hsign & _ & Hinj).
  split; [reflexivity|]. split; [exact Hsign|]. apply Hinj. reflexivity.
Defined.

Set Warnings "-clear-no-such-hyp".

Lemma omit_lookup `{E : Engine} (o : gmap string value) (props : list string)
    (k : string) :
  omit (JObj o) props !! k =
    if decide (k ∈ props ∨ k = "__proto__") then None else o !! k.
Proof.
  unfold omit. apply option_eq. intros v.
  rewrite map_lookup_filter_Some. simpl.
  destruct (decide (k ∈ props ∨ k = "__proto__")) as [Hd|Hd].
  - split; [|done]. intros [_ [Hn Hp]]. by destruct Hd.
  - split; [by intros [? _]|]. intros Hk. split; [done|].
    split; [intros ?; apply Hd; by left | intros ?; apply Hd; by right].
Qed.

Lemma withoutSigning_result_lookup `{E : Engine} (o : gmap string value)
    (k : string) :
  withoutSigning_result (JObj o) !! k =
    if decide (k = "tx_json")
    then Some (JObj (omit (get_through (omit (JObj o) ["tx_blob"; "hash"])
                             (omit_prototype (JObj o) ["tx_blob"; "hash"])
                             "tx_json")
                          ["SigningPubKey"; "TxnSignature"]))
    else omit (JObj o) ["tx_blob"; "hash"] !! k.
Proof.
  unfold withoutSigning_result.
  destruct (decide (k = "tx_json")) as [->|Hne].
  - by rewrite lookup_insert_eq.
  - by rewrite lookup_insert_ne.
Qed.

Lemma own_tx_json `{E : Engine} (o : gmap string value) (v : value) :
  o !! "tx_json" = Some v ->
  get_through (omit (JObj o) ["tx_blob"; "hash"])
    (omit_prototype (JObj o) ["tx_blob"; "hash"]) "tx_json" = v.
Proof.
  intros Hv. unfold get_through. rewrite omit_lookup.
  rewrite decide_False; [by rewrite Hv|].
  intros [Hin|?]; [|done]. set_solver.
Qed.

(** X15. For a response that parses to an object with an object
    [tx_json], [withoutSigning] prints an object without [tx_blob] and
    [hash], whose [tx_json] has lost [SigningPubKey] and [TxnSignature],
    and whose other fields are the response's. The only other thing that
    goes is a property named [__proto__], of the response or of its
    [tx_json], which the copy does not carry over. *)
Theorem withoutSigning_strips `{E : Engine} (response : string)
    (o tx : gmap string value) :
  JSON_parse response = inr (JObj o) ->
  o !! "tx_json" = Some (JObj tx) ->
  ∃ result t,
    withoutSigning response = inr (JSON_stringify (JObj result)) ∧
    result !! "tx_blob" = None ∧
    result !! "hash" = None ∧
    result !! "__proto__" = None ∧
    result !! "tx_json" = Some (JObj t) ∧
    t !! "SigningPubKey" = None ∧
    t !! "TxnSignature" = None ∧
    t !! "__proto__" = None ∧
    (∀ k, k ∉ ["SigningPubKey"; "TxnSignature"; "__proto__"] ->
          t !! k = tx !! k) ∧
    (∀ k, k ∉ ["tx_blob"; "hash"; "tx_json"; "__proto__"] ->
          result !! k = o !! k).
Proof.
  intros Hp Htx.
  exists (withoutSigning_result (JObj o)),
         (omit (JObj tx) ["SigningPubKey"; "TxnSignature"]).
  split; [unfold withoutSigning; by rewrite Hp|].
  rewrite !withoutSigning_result_lookup, (own_tx_json o _ Htx).
  split_and!.
  - rewrite decide_False by done. rewrite omit_lookup.
    by rewrite decide_True by (left; set_solver).
  - rewrite decide_False by done. rewrite omit_lookup.
    by rewrite decide_True by (left; set_solver).
  - rewrite decide_False by done. rewrite omit_lookup.
    by rewrite decide_True by (by right).
  - by rewrite decide_True by done.
  - rewrite omit_lookup. by rewrite decide_True by (left; set_solver).
  - rewrite omit_lookup. by rewrite decide_True by (left; set_solver).
  - rewrite omit_lookup. by rewrite decide_True by (by right).
  - intros k Hk. rewrite omit_lookup. rewrite decide_False; [done|].
    intros [Hin| ->]; apply Hk; set_solver.
  - intros k Hk. rewrite withoutSigning_result_lookup.
    rewrite decide_False by set_solver. rewrite omit_lookup.
    rewrite decide_False; [done|].
    intros [Hin| ->]; apply Hk; set_solver.
Qed.

Lemma withoutSigning_strips_witness :
  ∃ result t,
    withoutSigning (E := Canned.engine) "signed"
      = inr (@JSON_stringify Canned.engine (JObj result)) ∧
    result !! "tx_blob" = None ∧
    result !! "tx_json" = Some (JObj t) ∧
    t !! "TxnSignature" = None ∧
    t !! "Account" = Some (JStr "rA").
Proof.
  destruct (withoutSigning_strips (E := Canned.engine) "signed" Canned.signed
              (<["SigningPubKey" := JStr "02"]>
                 (<["TxnSignature" := JStr "30"]>
                    {[ "Account" := JStr "rA" ]}))
              ltac:(reflexivity) ltac:(reflexivity))
    as (result & t & Hrun & Hblob & _ & _ & Htx & _ & Hsig & _ & Hkeep & _).
  exists result, t. repeat split; try done.
  rewrite Hkeep; [reflexivity|].
  intros Hin. repeat (apply elem_of_cons in Hin as [|Hin]; [done|]).
  by apply elem_of_nil in Hin.
Defined.

(** X16. [withoutSigning] always prints an object that has an object for
    [tx_json]. When the response is [null], or has [null] for [tx_json], or
    has neither a [tx_json] nor a [__proto__] property (through which one
    could be inherited), an empty [tx_json] object is put in. An exception
    of [JSON.parse] is the function's own. *)
Theorem withoutSigning_supplies_tx_json `{E : Engine} (response : string) :
  (∀ e, JSON_parse response = inl e -> withoutSigning response = inl e) ∧
  (∀ parsed, JSON_parse response = inr parsed ->
     ∃ result t,
       withoutSigning response = inr (JSON_stringify (JObj result)) ∧
       result !! "tx_json" = Some (JObj t)) ∧
  (JSON_parse response = inr JNull ->
   withoutSigning response
     = inr (JSON_stringify (JObj {[ "tx_json" := JObj ∅ ]}))) ∧
  (∀ o, JSON_parse response = inr (JObj o) ->
        o !! "tx_json" = Some JNull ∨
        (o !! "tx_json" = None ∧ o !! "__proto__" = None) ->
        ∃ result,
          withoutSigning response = inr (JSON_stringify (JObj result)) ∧
          result !! "tx_json" = Some (JObj ∅) ∧
          ∀ k, k ≠ "tx_json" ->
               result !! k = omit (JObj o) ["tx_blob"; "hash"] !! k).
Proof.
  unfold withoutSigning. split_and!.
  - by intros e ->.
  - intros parsed ->. eexists _, _. split; [reflexivity|].
    unfold withoutSigning_result. by rewrite lookup_insert_eq.
  - by intros ->.
  - intros o -> Hno. exists (withoutSigning_result (JObj o)).
    split; [done|]. split.
    + rewrite withoutSigning_result_lookup. rewrite decide_True by done.
      destruct Hno as [Hnull | [Hnone Hproto]].
      * by rewrite (own_tx_json o _ Hnull).
      * unfold get_through. rewrite omit_lookup.
        rewrite decide_False by (intros [Hin|?]; [set_solver|done]).
        rewrite Hnone. simpl. by rewrite Hproto.
    + intros k Hk. rewrite withoutSigning_result_lookup.
      by rewrite decide_False.
Qed.

Lemma withoutSigning_supplies_tx_json_witness :
  withoutSigning (E := Canned.engine) "{" = inl (AssertionError "Unexpected token")
  ∧
  ∃ result,
    withoutSigning (E := Canned.engine) "bare"
      = inr (@JSON_stringify Canned.engine (JObj result)) ∧
    result !! "tx_json" = Some (JObj ∅) ∧
    result !! "hash" = None.
Proof.
  destruct (withoutSigning_supplies_tx_json (E := Canned.engine) "{")
    as (Herr & _ & _ & _).
  destruct (withoutSigning_supplies_tx_json (E := Canned.engine) "bare")
    as (_ & _ & _ & Hbare).
  split; [by apply Herr|].
  destruct (Hbare {[ "hash" := JStr "H" ]} ltac:(reflexivity)
              ltac:(right; split; reflexivity)) as (result & Hrun & Htx & Hk).
  exists result. split; [exact Hrun|]. split; [exact Htx|].
  rewrite Hk by done. reflexivity.
Defined.

(** Why X16 asks for no [__proto__] property when the [tx_json] is
    missing: the copy made by [_.omit] takes the value of a [__proto__]
    property for prototype, and [result.tx_json] is then read through it. *)
Example withoutSigning_inherits_tx_json :
  withoutSigning_result (E := Canned.engine)
    (JObj {[ "__proto__" :=
               JObj {[ "tx_json" := JObj {[ "Account" := JStr "rA" ]} ]} ]})
  = {[ "tx_json" := JObj {[ "Account" := JStr "rA" ]} ]}.
Proof. vm_compute. reflexivity. Qed.

(** X17. [withoutSigning] erases what signing adds: for two responses that
    differ only in [tx_blob], in [hash] and in the [SigningPubKey] and
    [TxnSignature] of their [tx_json], the objects it prints have the same
    fields with the same values. (The order of the fields in the printed
    text, which follows the order in the responses, is not covered.) *)
Theorem withoutSigning_erases_signing `{E : Engine} (r1 r2 : string)
    (a b ta tb : gmap string value) :
  JSON_parse r1 = inr (JObj a) ->
  JSON_parse r2 = inr (JObj b) ->
  a !! "tx_json" = Some (JObj ta) ->
  b !! "tx_json" = Some (JObj tb) ->
  (∀ k, k ∉ ["tx_blob"; "hash"; "tx_json"] -> a !! k = b !! k) ->
  (∀ k, k ∉ ["SigningPubKey"; "TxnSignature"] -> ta !! k = tb !! k) ->
  ∃ printed1 printed2 t1 t2,
    withoutSigning r1 = inr (JSON_stringify (JObj printed1)) ∧
    withoutSigning r2 = inr (JSON_stringify (JObj printed2)) ∧
    printed1 !! "tx_json" = Some (JObj t1) ∧
    printed2 !! "tx_json" = Some (JObj t2) ∧
    (∀ k, t1 !! k = t2 !! k) ∧
    (∀ k, k ≠ "tx_json" -> printed1 !! k = printed2 !! k).
Proof.
  intros Ha Hb Hta Htb Hout Hin.
  exists (withoutSigning_result (JObj a)), (withoutSigning_result (JObj b)),
         (omit (JObj ta) ["SigningPubKey"; "TxnSignature"]),
         (omit (JObj tb) ["SigningPubKey"; "TxnSignature"]).
  unfold withoutSigning. rewrite Ha, Hb.
  rewrite !withoutSigning_result_lookup.
  rewrite (own_tx_json a _ Hta), (own_tx_json b _ Htb).
  split_and!; try done; try (by case_decide).
  - intros k. rewrite !omit_lookup.
    destruct (decide _) as [|Hk]; [done|]. apply Hin.
    intros ?. apply Hk. by left.
  - intros k Hk. rewrite !withoutSigning_result_lookup.
    destruct (decide (k = "tx_json")); [done|]. rewrite !omit_lookup.
    destruct (decide _) as [|Hd]; [done|]. apply Hout.
    intros Hm. apply Hd. left.
    apply elem_of_cons in Hm as [->|Hm]; [set_solver|].
    apply elem_of_cons in Hm as [->|Hm]; [set_solver|].
    apply elem_of_cons in Hm as [->|Hm]; [done|].
    by apply elem_of_nil in Hm.
Qed.

Lemma withoutSigning_erases_signing_witness :
  ∃ printed1 printed2,
    withoutSigning (E := Canned.engine) "signed"
      = inr (@JSON_stringify Canned.engine (JObj printed1)) ∧
    withoutSigning (E := Canned.engine) "unsigned"
      = inr (@JSON_stringify Canned.engine (JObj printed2)) ∧
    printed1 !! "tx_blob" = printed2 !! "tx_blob".
Proof.
  destruct (withoutSigning_erases_signing (E := Canned.engine) "signed"
           "unsigned" Canned.signed Canned.unsigned
           (<["SigningPubKey" := JStr "02"]>
              (<["TxnSignature" := JStr "30"]> {[ "Account" := JStr "rA" ]}))
           {[ "Account" := JStr "rA" ]}
           ltac:(reflexivity) ltac:(reflexivity)
           ltac:(reflexivity) ltac:(reflexivity))
    as (p1 & p2 & t1 & t2 & H1 & H2 & _ & _ & _ & Hsame).
  - intros k Hk. unfold Canned.signed, Canned.unsigned.
    rewrite !lookup_insert_ne by set_solver.
    rewrite !lookup_singleton_ne by set_solver. done.
  - intros k Hk. rewrite !lookup_insert_ne by set_solver. done.
  - exists p1, p2. split; [exact H1|]. split; [exact H2|]. by apply Hsame.
Defined.

(** X18. Stripping is idempotent: when the codec reads back the object it
    printed, what [withoutSigning] printed for a response with an object
    [tx_json] is left unchanged by [withoutSigning]. *)
Theorem withoutSigning_idempotent `{E : Engine} (response stripped : string)
    (o tx : gmap string value) :
  JSON_parse response = inr (JObj o) ->
  o !! "tx_json" = Some (JObj tx) ->
  withoutSigning response = inr stripped ->
  JSON_parse stripped = inr (JObj (withoutSigning_result (JObj o))) ->
  withoutSigning stripped = inr stripped.
Proof.
  intros Hp Htx Hrun Hback. unfold withoutSigning in *.
  rewrite Hp in Hrun. injection Hrun as <-. rewrite Hback.
  do 3 f_equal. apply map_eq. intros k.
  assert (withoutSigning_result (JObj o) !! "tx_json"
          = Some (JObj (omit (JObj tx) ["SigningPubKey"; "TxnSignature"])))
    as Hfirst.
  { rewrite withoutSigning_result_lookup, (own_tx_json o _ Htx).
    by rewrite decide_True by done. }
  rewrite (withoutSigning_result_lookup (withoutSigning_result (JObj o))).
  rewrite (own_tx_json _ _ Hfirst).
  destruct (decide (k = "tx_json")) as [->|Hne].
  - rewrite Hfirst. do 2 f_equal. apply map_eq. intros j.
    rewrite !omit_lookup. by destruct (decide _).
  - rewrite omit_lookup. destruct (decide _) as [Hd|]; [|done].
    rewrite withoutSigning_result_lookup. rewrite decide_False by done.
    rewrite omit_lookup. by rewrite decide_True.
Qed.

Lemma withoutSigning_idempotent_witness :
  withoutSigning (E := Canned.engine) "stripped" = inr "stripped".
Proof.
  apply (withoutSigning_idempotent (E := Canned.engine) "signed" "stripped"
           Canned.signed
           (<["SigningPubKey" := JStr "02"]>
              (<["TxnSignature" := JStr "30"]> {[ "Account" := JStr "rA" ]})));
    reflexivity.
Defined.
